(** * DRAGON-X prediction service: shallow embedding of [app.py]

    The embedding follows the Python source section by section:
    helpers, the static pattern catalogue, the prediction engine
    [dragonx_engine] and the polling job [prediction_job].

    Conventions.
    - Python strings are [string]; the category of an observation is the
      string ["B"] or ["S"], exactly as [get_bs] produces it.
    - Python integers are [Z].
    - The few float computations of the source (a mean, two ratios, the
      candidate scores) are modelled by exact rationals [Q].  Every float
      comparison of the source compares a quotient of two small integers
      (or a sum of at most three short decimals) with a short decimal
      constant; two such quantities are either equal as rationals, and then
      computed by the same float operations, or they differ by far more
      than the rounding error, so the exact comparison agrees with the
      float one.
    - A raised Python exception is the [Err] branch of the result type
      [res]. *)

From Stdlib Require Import ZArith QArith Qround String Ascii List Lia.
From stdpp Require Import base option list strings pretty gmap sorting.

Local Open Scope string_scope.
Local Open Scope Z_scope.

(** ** Exceptions and the error monad *)

Inductive exn : Type :=
  | IndexError
  | ValueError
  | KeyError
  | RequestException
  | HTTPError
  | JSONDecodeError.

Inductive res (A : Type) : Type :=
  | Ok (a : A)
  | Err (e : exn).
Arguments Ok {A} a.
Arguments Err {A} e.

Definition res_bind {A B : Type} (r : res A) (k : A -> res B) : res B :=
  match r with
  | Ok a => k a
  | Err e => Err e
  end.

Notation "'let*' x ':=' r 'in' k" := (res_bind r (fun x => k))
  (at level 10, x pattern, r at level 100, k at level 200).

(** ** Python list and string primitives *)

(** [seq[-k:]] for [k > 0]: the last [k] elements, the whole list when it
    is shorter. *)
Definition lastn {A : Type} (k : nat) (l : list A) : list A :=
  drop (length l - k) l.

(** [''.join(l)] *)
Definition join (l : list string) : string :=
  foldr String.append "" l.

(** [needle in hay] on strings: substring test. *)
Fixpoint contains (needle hay : string) : bool :=
  String.prefix needle hay ||
  match hay with
  | EmptyString => false
  | String _ rest => contains needle rest
  end.

(** [l[n]] on a list of length [len]: Python accepts [-len <= n < len] and
    counts negative indices from the end. *)
Definition py_index (len : Z) (n : Z) : res nat :=
  if (0 <=? n) && (n <? len) then Ok (Z.to_nat n)
  else if (- len <=? n) && (n <? 0) then Ok (Z.to_nat (n + len))
  else Err IndexError.

(** [round(q)] : Python rounds to the nearest integer, halves to even. *)
Definition py_round (q : Q) : Z :=
  let f := Qfloor q in
  let d := Qminus q (inject_Z f) in
  match Qcompare d (1 # 2) with
  | Lt => f
  | Gt => f + 1
  | Eq => if Z.even f then f else f + 1
  end.

Definition Qgt_bool (x y : Q) : bool := negb (Qle_bool x y).

(** ** Helpers *)

Definition get_bs (num : Z) : string :=
  if 5 <=? num then "B" else "S".

Fixpoint adjacent_equal (seq : list string) : bool :=
  match seq with
  | x :: (y :: _) as rest => String.eqb y x || adjacent_equal rest
  | _ => false
  end.

Definition detect_alternating (seq : list string) : option string :=
  if (length seq <? 3)%nat then None
  else if adjacent_equal seq then None
  else Some (if bool_decide (last seq = Some "B") then "S" else "B").

Record Streak : Type := mkStreak {
  value : option string;
  count : Z
}.

(** The backward loop of [count_streak]: [older] lists the elements before
    the last one, nearest first. *)
Fixpoint run_length (lst : string) (older : list string) : Z :=
  match older with
  | x :: rest => if String.eqb x lst then 1 + run_length lst rest else 0
  | [] => 0
  end.

Definition count_streak (seq : list string) : Streak :=
  match reverse seq with
  | [] => mkStreak None 0
  | lst :: older => mkStreak (Some lst) (1 + run_length lst older)
  end.

(** ** The pattern catalogue *)

Definition STREAK_BREAK_PATTERNS : list string := [
  "BBBS"; "BBSB"; "BSBB"; "SBBB"; "SSSB"; "SSBS"; "SBSS"; "BSSS";
  "BBSS"; "BSSB"; "SSBB"; "SBBS"; "BSBS"; "SBSB"; "BBBB"; "SSSS";
  "BBBBBS"; "BBBBSB"; "BBBSBB"; "BBSBBB"; "BSBBBB"; "SBBBBB";
  "SSSSSB"; "SSSSBS"; "SSSBSS"; "SSBSSS"; "SBSSSS"; "BSSSSS";
  "BBBSSB"; "BBSSBB"; "BSSBBB"; "SSBBBS"; "SBBBSS"; "BBBSSS";
  "BBSSSB"; "BSSSBB"; "SSSBBB"; "SSBBBS"; "SBBBSS"; "BBSSBS";
  "BSSBBS"; "SSBBSS"; "SBBSSB"; "BBSSBB"; "BSSBSS"; "SSBBSB";
  "BBSBSB"; "SBBSBB"; "BSBSBS"; "SBSBSB"; "BBSSBB"; "SSBBSS";
  "BSSBSS"; "SBBSSB"; "BBSSBS"; "SBSSBB"; "BSSBBB"; "SBBSBS";
  "SSSBBS"; "BBSSSB"; "SBBBSB"; "BBBBBBB"; "SSSSSSS"; "BBBBBBS"; "SSSSSSB";
  "BBBBSBB"; "SSSBSSS"; "BBBSBBB"; "BBSBBBB"; "BSBBBBB"; "SSBBSSB"; "SBSSBBS"; "SSBBSBS";
  "BBSBBSB"; "SBSBSBS"; "BSSBSSB"; "SSBBSSS"; "BBSSSSS"; "SSBBBSS"; "BSSBBBS"; "SSBSSBB";
  "BBBBBB"; "SSSSSS"; "BBBSSB"; "SSBBSS"; "BBSBSB"; "SBBSBB"; "BSBSBS"; "SBSBSB";
  "BBSSBB"; "SSBBSS"; "BSSBSS"; "SBBSSB"; "BBSSBS"; "SBSSBB"; "BSSBBB"; "SBBSBS";
  "SSSBBS"; "BBSSSB"; "SBBBSB"; "BBSSB"; "SSBBS"; "BSBBS"; "SBSBB";
  "BBBSS"; "SSSBB"; "SBSSB"; "BSSSB"; "SBBSB"; "SSBSS"
].

(** ['S' if p[0] == 'B' else 'B'] *)
Definition flip_first (p : string) : string :=
  match p with
  | String c _ => if Ascii.eqb c "B"%char then "S" else "B"
  | EmptyString => "B"
  end.

(** The dictionary built for one [length] by the inner loop. *)
Definition build_map (len : nat) : gmap string string :=
  foldl (fun pattern_map p =>
           if (String.length p =? len)%nat
           then <[p := flip_first p]> pattern_map
           else pattern_map)
        ∅ STREAK_BREAK_PATTERNS.

(** [maps]: one [(length, pattern_map, name)] per length 10, 9, ..., 5. *)
Definition maps : list (nat * gmap string string * string) :=
  (fun len => (len, build_map len, pretty len +:+ "-digit"))
    <$> [10; 9; 8; 7; 6; 5]%nat.

(** ** Records *)

(** The value under the key ['num']: an integer, or the string ['-'] of a
    SKIP verdict. *)
Inductive pyval : Type :=
  | PInt (z : Z)
  | PStr (s : string).

Definition pyval_eqb (a b : pyval) : bool :=
  match a, b with
  | PInt x, PInt y => x =? y
  | PStr x, PStr y => String.eqb x y
  | _, _ => false
  end.

(** The dictionary returned by [dragonx_engine]. *)
Record Verdict : Type := mkVerdict {
  bs : string;
  num : pyval;
  confidence : Z;
  logic : string;
  bias : string
}.

(** An entry of [state["predictions"]]. *)
Record Prediction : Type := mkPrediction {
  p_period : string;
  p_bs : string;
  p_num : pyval;
  p_confidence : Z;
  p_logic : string;
  p_bias : string;
  p_result : string
}.

(** An entry of [state["trends"]]. *)
Record Trend : Type := mkTrend {
  t_period : string;
  t_num : Z;
  t_bs : string
}.

(** ** DRAGON-X engine *)

(** *** Cold start *)

Definition statistical_fallback (recent_numbers : list Z) : Verdict :=
  let avg : Q :=
    match recent_numbers with
    | [] => inject_Z 5
    | _ => Qdiv (inject_Z (foldr Z.add 0 recent_numbers))
                (inject_Z (Z.of_nat (length recent_numbers)))
    end in
  {| bs := if Qle_bool (inject_Z 5) avg then "B" else "S";
     num := PInt 5;
     confidence := 55;
     logic := "STATISTICAL_FALLBACK";
     bias := "NEUTRAL" |}.

(** *** Dragon risk skip *)

Definition is_lose (p : Prediction) : bool := String.eqb (p_result p) "Lose".

Definition is_flip (streak : Streak) (p : Prediction) : bool :=
  (bool_decide (value streak = Some "B") && String.eqb (p_bs p) "S") ||
  (bool_decide (value streak = Some "S") && String.eqb (p_bs p) "B").

Definition flip_losses (streak : Streak) (predictions : list Prediction) : Z :=
  let recent_losses := take 3 (List.filter is_lose predictions) in
  Z.of_nat (length (List.filter (is_flip streak) recent_losses)).

Definition dragon_risk (streak : Streak) (predictions : list Prediction) : bool :=
  (6 <=? count streak) && (2 <=? flip_losses streak predictions).

Definition skip_verdict : Verdict :=
  {| bs := "SKIP";
     num := PStr "-";
     confidence := 0;
     logic := "🔥 HIGH-RISK DRAGON DETECTED! SKIP ZONE! 🔥";
     bias := "DRAGON_RISK" |}.

(** *** Pattern lookup: the loop over [maps], leaving at the first hit *)

(** [f"{name} MATCH: {key} → {prediction}"] *)
Definition match_label (name key prediction : string) : string :=
  name +:+ " MATCH: " +:+ key +:+ " → " +:+ prediction.

Fixpoint find_match (natural_order : list string)
    (ms : list (nat * gmap string string * string)) : option (string * string) :=
  match ms with
  | [] => None
  | (len, pattern_map, name) :: rest =>
      if (len <=? length natural_order)%nat then
        let key := join (lastn len natural_order) in
        match pattern_map !! key with
        | Some prediction => Some (prediction, match_label name key prediction)
        | None => find_match natural_order rest
        end
      else find_match natural_order rest
  end.

(** *** Fallback logic *)

Definition big_ratio (window : list string) : Q :=
  match window with
  | [] => 5 # 10
  | _ => Qdiv (inject_Z (Z.of_nat (length (List.filter (String.eqb "B") window))))
              (inject_Z (Z.of_nat (length window)))
  end.

Definition fallback_logic (natural_order : list string) (streak : Streak)
    : res (string * string) :=
  if (4 <=? count streak) && (count streak <? 6) then
    Ok (if bool_decide (value streak = Some "B") then "S" else "B",
        "SHORT_STREAK_REVERSAL (" +:+ pretty (count streak) +:+ "x)")
  else
    match detect_alternating (lastn 10 natural_order) with
    | Some alt => Ok (alt, "ALTERNATING")
    | None =>
        let r := big_ratio (lastn 30 natural_order) in
        if Qle_bool (72 # 100) r then
          Ok ("B", "BIG DOMINANCE (" +:+ pretty (py_round (Qmult r (inject_Z 100))) +:+ "%)")
        else if Qle_bool r (28 # 100) then
          Ok ("S", "SMALL DOMINANCE ("
                   +:+ pretty (py_round (Qmult (Qminus (inject_Z 1) r) (inject_Z 100)))
                   +:+ "%)")
        else
          match last natural_order with
          | Some newest => Ok (newest, "MOMENTUM")
          | None => Err IndexError
          end
    end.

Definition choose_prediction (natural_order : list string) (streak : Streak)
    : res (string * string) :=
  match find_match natural_order maps with
  | Some hit => Ok hit
  | None => fallback_logic natural_order streak
  end.

(** *** Confidence *)

Definition base_confidence (used_pattern : string) : Z :=
  if contains "10-digit" used_pattern then 98
  else if contains "9-digit" used_pattern then 97
  else if contains "8-digit" used_pattern then 96
  else if contains "7-digit" used_pattern then 94
  else if contains "6-digit" used_pattern then 90
  else if contains "DOMINANCE" used_pattern then 85
  else if contains "MOMENTUM" used_pattern then 75
  else if contains "SHORT_STREAK" used_pattern then 80
  else if contains "ALTERNATING" used_pattern then 82
  else 60.

Definition is_graded (p : Prediction) : bool := negb (String.eqb (p_result p) "P").

Definition loss_rate (predictions : list Prediction) : Q :=
  let recent_preds := take 10 (List.filter is_graded predictions) in
  match recent_preds with
  | [] => inject_Z 0
  | _ => Qdiv (inject_Z (Z.of_nat (length (List.filter is_lose recent_preds))))
              (inject_Z (Z.of_nat (length recent_preds)))
  end.

Definition penalised (predictions : list Prediction) (base_conf : Z) : Z :=
  if Qgt_bool (loss_rate predictions) (6 # 10)
  then Z.max 55 (base_conf - 15)
  else base_conf.

Definition final_confidence (used_pattern : string)
    (predictions : list Prediction) : Z :=
  let base_conf := penalised predictions (base_confidence used_pattern) in
  Z.min 98 (Z.max 55 base_conf).

(** *** Smart number selection *)

(** [counts = [0]*10] then [counts[n] += 1] for each [n]. *)
Fixpoint tally (counts : list Z) (ns : list Z) : res (list Z) :=
  match ns with
  | [] => Ok counts
  | n :: rest =>
      let* i := py_index (Z.of_nat (length counts)) n in
      tally (alter Z.succ i counts) rest
  end.

Definition is_even (n : Z) : bool := n mod 2 =? 0.
Definition is_odd (n : Z) : bool := n mod 2 =? 1.

Definition score (counts last_10_nums : list Z) (even_bias : bool) (n : Z) : Q :=
  let s := inject_Z (1 + counts !!! Z.to_nat n) in
  let s := if bool_decide (n ∈ last_10_nums) then Qplus s (12 # 10) else s in
  if (even_bias && is_even n) || (negb even_bias && is_odd n)
  then Qplus s (7 # 10) else s.

(** [weighted.sort(key=lambda x: x[1], reverse=True)]: a stable sort,
    entries of equal score keep their order. *)
Fixpoint insert_desc (x : Z * Q) (sorted : list (Z * Q)) : list (Z * Q) :=
  match sorted with
  | [] => [x]
  | y :: rest =>
      if Qgt_bool (snd y) (snd x) then y :: insert_desc x rest
      else x :: y :: rest
  end.

Definition sort_desc (l : list (Z * Q)) : list (Z * Q) :=
  foldr insert_desc [] l.

Definition pool_of (prediction : string) : list Z :=
  if String.eqb prediction "B" then [5; 6; 7; 8; 9] else [0; 1; 2; 3; 4].

Definition select_number (prediction : string) (recent_numbers : list Z)
    (predictions : list Prediction) : res Z :=
  let pool := pool_of prediction in
  let* counts := tally (replicate 10 0) (lastn 60 recent_numbers) in
  let last_10_nums := lastn 10 recent_numbers in
  let even_bias := (5 <? length (List.filter is_even last_10_nums))%nat in
  let weighted := (fun n => (n, score counts last_10_nums even_bias n)) <$> pool in
  let weighted :=
    match predictions with
    | p :: _ =>
        if is_lose p
        then List.filter (fun ns => negb (pyval_eqb (PInt (fst ns)) (p_num p))) weighted
        else weighted
    | [] => weighted
    end in
  match sort_desc weighted with
  | (n, _) :: _ => Ok n
  | [] => match pool with n :: _ => Ok n | [] => Err IndexError end
  end.

(** *** Bias *)

Definition bias_of (used_pattern : string) : string :=
  if contains "DOMINANCE" used_pattern || contains "MOMENTUM" used_pattern
  then "MOMENTUM_BIAS"
  else if contains "STREAK" used_pattern then "REVERSAL_BIAS"
  else if contains "digit" used_pattern then "PATTERN_BIAS"
  else if contains "ALTERNATING" used_pattern then "CHOP_BIAS"
  else "NEUTRAL".

(** *** The engine *)

Definition dragonx_engine (recent_numbers : list Z) (recent_bs : list string)
    (predictions : list Prediction) : res Verdict :=
  if (length recent_numbers <? 10)%nat then
    Ok (statistical_fallback recent_numbers)
  else
    let natural_order := reverse recent_bs in
    let streak := count_streak natural_order in
    if dragon_risk streak predictions then Ok skip_verdict
    else
      let* (prediction, used_pattern) := choose_prediction natural_order streak in
      let confidence := final_confidence used_pattern predictions in
      let* final_num := select_number prediction recent_numbers predictions in
      Ok {| bs := prediction;
            num := PInt final_num;
            confidence := confidence;
            logic := used_pattern;
            bias := bias_of used_pattern |}.

(** ** Main job *)

Record State : Type := mkState {
  trends : list Trend;
  predictions : list Prediction
}.

(** [deque(maxlen=...).appendleft(x)]: a full deque drops its right end. *)
Definition appendleft {A : Type} (maxlen : nat) (x : A) (d : list A) : list A :=
  take maxlen (x :: d).

(** What [requests.get(...)], [raise_for_status()] and [res.json()] deliver.
    The feed's documented entry carries a string [issueNumber] and an
    integer [number]; [Malformed] stands for a first element without them,
    on which the subscripts (or [get_bs]) raise. *)
Inductive entry : Type :=
  | Malformed
  | Content (issueNumber : string) (number : Z).

Inductive payload : Type :=
  | NotAList
  | AList (items : list entry).

Inductive response : Type :=
  | Raised (e : exn)
  | Json (data : payload).

Definition set_result (p : Prediction) (r : string) : Prediction :=
  {| p_period := p_period p; p_bs := p_bs p; p_num := p_num p;
     p_confidence := p_confidence p; p_logic := p_logic p;
     p_bias := p_bias p; p_result := r |}.

(** The three-way verdict written into [last_pred["result"]]. *)
Definition grade (last_pred : Prediction) (bs : string) (number : Z) : string :=
  if String.eqb (p_bs last_pred) bs && pyval_eqb (p_num last_pred) (PInt number)
  then "Jackpot"
  else if String.eqb (p_bs last_pred) bs then "Win"
  else "Lose".

(** The grading block: [last_pred] is [state["predictions"][0]], updated in
    place. *)
Definition grade_last (period bs : string) (number : Z)
    (preds : list Prediction) : list Prediction :=
  match preds with
  | last_pred :: older =>
      if String.eqb (p_period last_pred) period
      then set_result last_pred (grade last_pred bs number) :: older
      else preds
  | [] => []
  end.

Section Job.

(** [int(period)] and [str(n)], the two builtins the job applies to
    period identifiers. *)
Variable py_int : string -> option Z.
Variable py_str : Z -> string.

(** The body of the [try] block.  The state is returned together with
    the exception that left the block, if any: what was written before
    the exception stays written. *)
Definition job_body (st : State) (resp : response) : State * option exn :=
  match resp with
  | Raised e => (st, Some e)
  | Json NotAList => (st, Some ValueError)
  | Json (AList []) => (st, Some ValueError)
  | Json (AList (Malformed :: _)) => (st, Some KeyError)
  | Json (AList (Content period number :: _)) =>
      let bs_now := get_bs number in
      let trends1 := appendleft 1000 (mkTrend period number bs_now) (trends st) in
      let preds1 := grade_last period bs_now number (predictions st) in
      match py_int period with
      | None => (mkState trends1 preds1, Some ValueError)
      | Some k =>
          let next_period := py_str (k + 1) in
          if existsb (fun p => String.eqb (p_period p) next_period) preds1
          then (mkState trends1 preds1, None)
          else
            let recent_nums := t_num <$> trends1 in
            let recent_bs := t_bs <$> trends1 in
            match dragonx_engine recent_nums recent_bs preds1 with
            | Err e => (mkState trends1 preds1, Some e)
            | Ok pred =>
                (mkState trends1
                   (appendleft 200
                      {| p_period := next_period;
                         p_bs := bs pred;
                         p_num := num pred;
                         p_confidence := confidence pred;
                         p_logic := logic pred;
                         p_bias := bias pred;
                         p_result := "P" |}
                      preds1),
                 None)
            end
      end
  end.

(** [prediction_job]: the [except Exception] clause logs and returns, so
    the job always hands back a state.  [save_history] only writes the
    logs to disk and swallows its own errors; it changes nothing in
    memory and is left out. *)
Definition prediction_job (st : State) (resp : response) : State :=
  fst (job_body st resp).

(** The scheduler: one job per response of the feed, in order. *)
Definition run_cycles (st : State) (feed : list response) : State :=
  foldl prediction_job st feed.

End Job.

(** Decimal [int] and [str] on ASCII digit strings, for concrete runs. *)
Fixpoint digits_value (acc : Z) (s : string) : option Z :=
  match s with
  | EmptyString => Some acc
  | String c rest =>
      let d := Z.of_nat (nat_of_ascii c) - 48 in
      if (0 <=? d) && (d <=? 9) then digits_value (10 * acc + d) rest else None
  end.

Definition int_decimal (s : string) : option Z :=
  match s with
  | EmptyString => None
  | _ => digits_value 0 s
  end.

Definition str_decimal (n : Z) : string := pretty n.

(** ** The remaining helper *)

(** [has_two_consecutive_losses]: the two most recent graded predictions
    both lost. *)
Definition has_two_consecutive_losses (predictions : list Prediction) : bool :=
  let recent := take 2 (List.filter is_graded predictions) in
  (length recent =? 2)%nat && forallb is_lose recent.

(** ** Safe file handling *)

(** What [HISTORY_FILE] holds, as [load_history] sees it: no file; a file
    on which [open], [json.load] or the two [deque(...)] calls raise; or a
    JSON object whose keys ["trends"] and ["predictions"], when present,
    hold lists of entries in the format [save_history] writes. *)
Inductive history_file : Type :=
  | NoFile
  | Unreadable
  | Stored (file_trends : option (list Trend))
           (file_predictions : option (list Prediction)).

(** [deque(l, maxlen=n)]: a longer list keeps its last [n] items. *)
Definition deque_of {A : Type} (maxlen : nat) (l : list A) : list A :=
  lastn maxlen l.

Definition load_history (st : State) (file : history_file) : State :=
  match file with
  | NoFile => st
  | Unreadable => mkState [] []
  | Stored file_trends file_predictions =>
      mkState (deque_of 1000 (default [] file_trends))
              (deque_of 200 (default [] file_predictions))
  end.

(** How the write of [save_history] ends: done, [open] raised (the file
    stays as it was), or [json.dump] raised after [open] had truncated the
    file (what is left is no JSON document). *)
Inductive write_outcome : Type :=
  | Written
  | OpenFailed
  | DumpFailed.

Definition save_history (st : State) (old : history_file)
    (outcome : write_outcome) : history_file :=
  match outcome with
  | Written => Stored (Some (trends st)) (Some (predictions st))
  | OpenFailed => old
  | DumpFailed => Unreadable
  end.

(** ** Flask routes *)

(** [/predict]: the most recent prediction, or the error body with status
    404. *)
Definition get_prediction (st : State) : Prediction + string * Z :=
  match predictions st with
  | [] => inr ("No prediction yet. Wait for first cycle.", 404)
  | newest :: _ => inl newest
  end.

(** [/history] *)
Definition get_history (st : State) : list Trend * list Prediction :=
  (take 50 (trends st), take 50 (predictions st)).

(** ** Vocabulary of the specification *)

(** The category opposite to a category: High against Low. *)
Definition opposite (c : string) : option string :=
  if String.eqb c "B" then Some "S"
  else if String.eqb c "S" then Some "B"
  else None.

(** The suffix of [len] categories the table is queried with, and whether
    the catalogue holds it. *)
Definition suffix_key (len : nat) (natural_order : list string) : string :=
  join (lastn len natural_order).

Definition catalogue_match (len : nat) (natural_order : list string) : Prop :=
  (len <= length natural_order)%nat /\
  suffix_key len natural_order ∈ STREAK_BREAK_PATTERNS.

(** The documented input domain of the engine: numeric values 0 to 9, one
    category per value, derived by the classifier. *)
Definition in_domain (recent_numbers : list Z) (recent_bs : list string) : Prop :=
  Forall (fun n => 0 <= n <= 9) recent_numbers /\
  recent_bs = get_bs <$> recent_numbers.

(** * Properties *)

(** ** Lists *)

Lemma lastn_reverse {A : Type} (k : nat) (l : list A) :
  lastn k (reverse l) = reverse (take k l).
Proof.
  unfold lastn. rewrite length_reverse, drop_reverse.
  destruct (decide (k <= length l)%nat) as [Hk | Hk].
  - do 2 f_equal. lia.
  - replace (length l - (length l - k))%nat with (length l) by lia.
    rewrite !take_ge by lia. reflexivity.
Qed.

Lemma lastn_elem_of {A : Type} (k : nat) (l : list A) (x : A) :
  x ∈ lastn k l -> x ∈ l.
Proof. unfold lastn. apply subseteq_drop. Qed.

Lemma count_streak_reverse (l : list string) :
  count_streak (reverse l) =
  match l with
  | [] => mkStreak None 0
  | newest :: older => mkStreak (Some newest) (1 + run_length newest older)
  end.
Proof. unfold count_streak. rewrite reverse_involutive. reflexivity. Qed.

Lemma run_length_nonneg (c : string) (l : list string) : 0 <= run_length c l.
Proof.
  induction l as [| x l IH]; simpl; [lia |].
  destruct (String.eqb x c); lia.
Qed.

Lemma run_length_replicate (c : string) (m : nat) (older : list string) :
  Z.of_nat m <= run_length c (replicate m c ++ older).
Proof.
  induction m as [| m IH]; simpl replicate; simpl app.
  - apply run_length_nonneg.
  - cbn [run_length]. rewrite String.eqb_refl. lia.
Qed.

(** ** Cold start *)

Lemma mean_at_least_5 (x : Z) (l : list Z) :
  Qle_bool (inject_Z 5)
    (Qdiv (inject_Z (foldr Z.add 0 (x :: l)))
          (inject_Z (Z.of_nat (length (x :: l))))) =
  (5 * Z.of_nat (length (x :: l)) <=? foldr Z.add 0 (x :: l)).
Proof.
  set (total := foldr Z.add 0 (x :: l)).
  cbn [length]. rewrite Nat2Z.inj_succ.
  destruct (Z.succ (Z.of_nat (length l))) as [| n | n] eqn:Hn; try lia.
  unfold Qle_bool, Qdiv, Qmult, Qinv, inject_Z. cbn.
  apply eq_true_iff_eq. rewrite !Z.leb_le. lia.
Qed.

Lemma dragonx_engine_cold (recent_numbers : list Z) (recent_bs : list string)
    (prior : list Prediction) :
  (length recent_numbers < 10)%nat ->
  dragonx_engine recent_numbers recent_bs prior =
    Ok (statistical_fallback recent_numbers).
Proof.
  intros Hlen. unfold dragonx_engine.
  destruct (Nat.ltb_spec (length recent_numbers) 10) as [_ | Hge]; [| lia].
  reflexivity.
Qed.

(** C1. With fewer than 10 observations the engine returns the statistical
    fallback, whatever the categories and the prior predictions are:
    category ["B"] (High) when the mean of the values is at least 5, that
    is when five times their number is at most their sum, ["S"] (Low)
    otherwise; suggested value 5, confidence 55, rationale
    STATISTICAL_FALLBACK, bias NEUTRAL. *)
Theorem cold_start_statistical_fallback
    (recent_numbers : list Z) (recent_bs : list string)
    (prior : list Prediction) :
  (length recent_numbers < 10)%nat ->
  dragonx_engine recent_numbers recent_bs prior =
    Ok {| bs := if 5 * Z.of_nat (length recent_numbers)
                     <=? foldr Z.add 0 recent_numbers
                then "B" else "S";
          num := PInt 5;
          confidence := 55;
          logic := "STATISTICAL_FALLBACK";
          bias := "NEUTRAL" |}.
Proof.
  intros Hlen. rewrite dragonx_engine_cold by assumption.
  unfold statistical_fallback. do 2 f_equal.
  destruct recent_numbers as [| x l]; [reflexivity |].
  now rewrite mean_at_least_5.
Qed.

Lemma cold_start_statistical_fallback_witness :
  dragonx_engine [9; 1; 4] ["B"; "S"; "S"] [] =
    Ok {| bs := "S"; num := PInt 5; confidence := 55;
          logic := "STATISTICAL_FALLBACK"; bias := "NEUTRAL" |}.
Proof.
  apply (cold_start_statistical_fallback [9; 1; 4] ["B"; "S"; "S"] []).
  simpl. lia.
Defined.

(** ** Dragon risk skip *)

Lemma is_flip_opposite (c o : string) (n : Z) (p : Prediction) :
  opposite c = Some o ->
  is_flip (mkStreak (Some c) n) p = String.eqb (p_bs p) o.
Proof.
  unfold opposite, is_flip. cbn [value].
  destruct (String.eqb_spec c "B") as [-> | HB].
  - intros [= <-].
    rewrite (bool_decide_eq_true_2 (Some "B" = Some "B")) by reflexivity.
    rewrite (bool_decide_eq_false_2 (Some "B" = Some "S")) by discriminate.
    cbn. now rewrite orb_false_r.
  - destruct (String.eqb_spec c "S") as [-> | HS]; [| discriminate].
    intros [= <-].
    rewrite (bool_decide_eq_true_2 (Some "S" = Some "S")) by reflexivity.
    rewrite (bool_decide_eq_false_2 (Some "S" = Some "B")) by discriminate.
    reflexivity.
Qed.

Lemma dragon_risk_of_run (c o : string) (n : nat) (older : list string)
    (prior : list Prediction) :
  (6 <= n)%nat ->
  opposite c = Some o ->
  (2 <= length (List.filter (fun p => String.eqb (p_bs p) o)
                  (take 3 (List.filter is_lose prior))))%nat ->
  dragon_risk (count_streak (reverse (replicate n c ++ older))) prior = true.
Proof.
  intros Hn Hopp Hflips. rewrite count_streak_reverse.
  destruct n as [| m]; [lia |]. cbn [replicate app].
  unfold dragon_risk, flip_losses. cbn [count].
  rewrite (List.filter_ext _ _ (fun p => is_flip_opposite c o _ p Hopp)).
  pose proof (run_length_replicate c m older).
  apply andb_true_iff. rewrite !Z.leb_le. lia.
Qed.

(** A stored cold-start prediction, as the job writes it, for concrete
    runs. *)
Definition stored (period bs : string) (result : string) : Prediction :=
  {| p_period := period; p_bs := bs; p_num := PInt 5; p_confidence := 55;
     p_logic := "STATISTICAL_FALLBACK"; p_bias := "NEUTRAL";
     p_result := result |}.

(** C2, as amended.  Past the cold-start gate (at least 10 observations),
    when the newest [n >= 6] observations all carry the category [c] and at
    least 2 of the 3 most recent Lose predictions predicted the opposite
    category, the engine returns the SKIP verdict: no suggested value
    (['-']), confidence 0, bias DRAGON_RISK.  Nothing after the gate is
    evaluated: the verdict is returned whatever the numeric values are. *)
Theorem dragon_risk_skip
    (recent_numbers : list Z) (recent_bs : list string)
    (prior : list Prediction) (c o : string) (n : nat) (older : list string) :
  (10 <= length recent_numbers)%nat ->
  recent_bs = (replicate n c ++ older)%list ->
  (6 <= n)%nat ->
  opposite c = Some o ->
  (2 <= length (List.filter (fun p => String.eqb (p_bs p) o)
                  (take 3 (List.filter is_lose prior))))%nat ->
  dragonx_engine recent_numbers recent_bs prior =
    Ok {| bs := "SKIP";
          num := PStr "-";
          confidence := 0;
          logic := "🔥 HIGH-RISK DRAGON DETECTED! SKIP ZONE! 🔥";
          bias := "DRAGON_RISK" |}.
Proof.
  intros Hlen -> Hn Hopp Hflips. unfold dragonx_engine.
  destruct (Nat.ltb_spec (length recent_numbers) 10) as [Hlt | _]; [lia |].
  now rewrite (dragon_risk_of_run c o n older prior Hn Hopp Hflips).
Qed.

Lemma dragon_risk_skip_witness :
  dragonx_engine [7; 8; 9; 7; 8; 9; 7; 1; 2; 3]
    (replicate 7 "B" ++ ["S"; "S"; "S"])%list
    [stored "11" "S" "P"; stored "10" "S" "Lose"; stored "9" "S" "Lose";
     stored "8" "S" "Lose"] =
    Ok {| bs := "SKIP"; num := PStr "-"; confidence := 0;
          logic := "🔥 HIGH-RISK DRAGON DETECTED! SKIP ZONE! 🔥";
          bias := "DRAGON_RISK" |}.
Proof.
  apply (dragon_risk_skip _ _ _ "B" "S" 7 ["S"; "S"; "S"]).
  - simpl. lia.
  - reflexivity.
  - lia.
  - reflexivity.
  - simpl. lia.
Defined.

(** C2 as stated fails below 10 observations.  Nine observations
    0, 0, 0, 5, 5, 5, 5, 5, 5 (oldest first) end in a run of six ["B"], and
    the three most recent Lose predictions all predicted ["S"]; the engine
    still answers with the cold-start fallback, not with SKIP. *)
Lemma dragon_risk_skip_counterexample :
  let recent_numbers := [5; 5; 5; 5; 5; 5; 0; 0; 0] in
  let recent_bs := get_bs <$> recent_numbers in
  let prior := [stored "9" "S" "Lose"; stored "8" "S" "Lose";
                stored "7" "S" "Lose"; stored "6" "S" "Win"] in
  recent_bs = (replicate 6 "B" ++ ["S"; "S"; "S"])%list /\
  count (count_streak (reverse recent_bs)) = 6 /\
  flip_losses (count_streak (reverse recent_bs)) prior = 3 /\
  dragonx_engine recent_numbers recent_bs prior =
    Ok {| bs := "S"; num := PInt 5; confidence := 55;
          logic := "STATISTICAL_FALLBACK"; bias := "NEUTRAL" |}.
Proof. repeat split; reflexivity. Qed.

(** ** Number selection *)

Lemma insert_desc_elem_of (x y : Z * Q) (sorted : list (Z * Q)) :
  y ∈ insert_desc x sorted <-> y = x \/ y ∈ sorted.
Proof.
  induction sorted as [| z rest IH]; cbn [insert_desc].
  - rewrite list_elem_of_singleton, elem_of_nil. tauto.
  - destruct (Qgt_bool (snd z) (snd x)).
    + rewrite !elem_of_cons, IH. tauto.
    + rewrite !elem_of_cons. tauto.
Qed.

Lemma sort_desc_elem_of (y : Z * Q) (l : list (Z * Q)) :
  y ∈ sort_desc l <-> y ∈ l.
Proof.
  induction l as [| x l IH]; cbn [sort_desc foldr]; [reflexivity |].
  fold (sort_desc l). rewrite insert_desc_elem_of, elem_of_cons, IH.
  reflexivity.
Qed.

Lemma tally_total (ns counts : list Z) :
  length counts = 10%nat ->
  Forall (fun n => 0 <= n <= 9) ns ->
  exists counts', tally counts ns = Ok counts'.
Proof.
  revert counts. induction ns as [| n ns IH]; intros counts Hlen Hns.
  - now exists counts.
  - inversion Hns as [| ? ? Hn Hrest]; subst. cbn [tally].
    rewrite Hlen. unfold py_index.
    destruct (Z.leb_spec 0 n); [| lia].
    destruct (Z.ltb_spec n (Z.of_nat 10)); [| lia].
    cbn [andb res_bind]. apply IH; [| assumption].
    now rewrite length_alter.
Qed.

Lemma select_number_pool (prediction : string) (recent_numbers : list Z)
    (prior : list Prediction) (n : Z) :
  select_number prediction recent_numbers prior = Ok n ->
  n ∈ pool_of prediction.
Proof.
  unfold select_number.
  destruct (tally _ _) as [counts | e]; cbn [res_bind]; [| discriminate].
  set (weighted := (fun n => (n, score _ _ _ n)) <$> pool_of prediction).
  set (kept := match prior with [] => _ | _ => _ end).
  assert (Hkept : forall x, x ∈ kept -> x.1 ∈ pool_of prediction).
  { intros x Hx.
    assert (Hw : x ∈ weighted).
    { subst kept. destruct prior as [| p ?]; [assumption |].
      destruct (is_lose p); [| assumption].
      apply list_elem_of_In, List.filter_In in Hx as [Hx _].
      now apply list_elem_of_In. }
    apply list_elem_of_fmap in Hw as (m & -> & Hm). exact Hm. }
  destruct (sort_desc kept) as [| [m q] rest] eqn:Hsorted.
  - destruct (pool_of prediction) as [| m rest] eqn:Hpool; [discriminate |].
    intros [= <-]. apply elem_of_cons. now left.
  - intros [= <-]. apply (Hkept (m, q)), sort_desc_elem_of.
    rewrite Hsorted. apply elem_of_cons. now left.
Qed.

Lemma select_number_total (prediction : string) (recent_numbers : list Z)
    (prior : list Prediction) :
  Forall (fun n => 0 <= n <= 9) recent_numbers ->
  exists n, select_number prediction recent_numbers prior = Ok n.
Proof.
  intros Hdom. unfold select_number.
  destruct (tally_total (lastn 60 recent_numbers) (replicate 10 0))
    as [counts ->]; [reflexivity | now apply Forall_drop |].
  cbn [res_bind].
  destruct (sort_desc _) as [| [m q] rest]; [| now exists m].
  unfold pool_of. destruct (String.eqb prediction "B"); eauto.
Qed.

Lemma pool_of_range (prediction : string) (n : Z) :
  n ∈ pool_of prediction ->
  (prediction = "B" /\ 5 <= n <= 9) \/ (prediction <> "B" /\ 0 <= n <= 4).
Proof.
  unfold pool_of. destruct (String.eqb_spec prediction "B") as [-> | Hne];
    intros Hin; [left | right]; (split; [done |]);
    repeat (apply elem_of_cons in Hin as [-> | Hin]; [lia |]);
    now apply elem_of_nil in Hin.
Qed.

(** ** Confidence *)

Lemma final_confidence_range (used_pattern : string) (prior : list Prediction) :
  55 <= final_confidence used_pattern prior <= 98.
Proof. unfold final_confidence. lia. Qed.

(** ** The engine past its two gates *)

Lemma choose_prediction_total (natural_order : list string) (streak : Streak) :
  natural_order <> [] ->
  exists prediction used_pattern,
    choose_prediction natural_order streak = Ok (prediction, used_pattern).
Proof.
  intros Hne. unfold choose_prediction.
  destruct (find_match natural_order maps) as [[v u] |]; [eauto |].
  unfold fallback_logic.
  destruct (_ && _); [eauto |].
  destruct (detect_alternating _); [eauto |].
  destruct (Qle_bool _ _); [eauto |].
  destruct (Qle_bool _ _); [eauto |].
  destruct (last natural_order) eqn:Hlast; [eauto |].
  now apply last_None in Hlast.
Qed.

Lemma dragonx_engine_past_gates (recent_numbers : list Z)
    (recent_bs : list string) (prior : list Prediction) :
  (10 <= length recent_numbers)%nat ->
  dragon_risk (count_streak (reverse recent_bs)) prior = false ->
  dragonx_engine recent_numbers recent_bs prior =
    let* (prediction, used_pattern) :=
      choose_prediction (reverse recent_bs) (count_streak (reverse recent_bs)) in
    let* final_num := select_number prediction recent_numbers prior in
    Ok {| bs := prediction;
          num := PInt final_num;
          confidence := final_confidence used_pattern prior;
          logic := used_pattern;
          bias := bias_of used_pattern |}.
Proof.
  intros Hlen Hrisk. unfold dragonx_engine.
  destruct (Nat.ltb_spec (length recent_numbers) 10) as [Hlt | _]; [lia |].
  now rewrite Hrisk.
Qed.

Lemma in_domain_nonempty (recent_numbers : list Z) (recent_bs : list string) :
  in_domain recent_numbers recent_bs ->
  (10 <= length recent_numbers)%nat ->
  reverse recent_bs <> [].
Proof.
  intros [_ ->] Hlen Hnil.
  apply (f_equal length) in Hnil.
  rewrite length_reverse, length_fmap in Hnil. simpl in Hnil. lia.
Qed.

(** Under the documented input domain the engine raises nothing. *)
Lemma dragonx_engine_total (recent_numbers : list Z)
    (recent_bs : list string) (prior : list Prediction) :
  in_domain recent_numbers recent_bs ->
  exists v, dragonx_engine recent_numbers recent_bs prior = Ok v.
Proof.
  intros Hdom.
  destruct (Nat.ltb_spec (length recent_numbers) 10) as [Hlt | Hge].
  - eexists. now apply dragonx_engine_cold.
  - destruct (dragon_risk (count_streak (reverse recent_bs)) prior) eqn:Hrisk.
    + exists skip_verdict. unfold dragonx_engine.
      destruct (Nat.ltb_spec (length recent_numbers) 10); [lia |].
      now rewrite Hrisk.
    + rewrite dragonx_engine_past_gates by assumption.
      destruct (choose_prediction_total (reverse recent_bs)
                  (count_streak (reverse recent_bs))) as (v & u & ->).
      { now apply (in_domain_nonempty recent_numbers). }
      cbn [res_bind].
      destruct (select_number_total v recent_numbers prior) as [n ->].
      { apply Hdom. }
      cbn [res_bind]. eauto.
Qed.

(** ** The pattern table *)

Lemma build_map_fold (len : nat) (k : string) (l : list string)
    (m : gmap string string) :
  foldl (fun pattern_map p =>
           if (String.length p =? len)%nat
           then <[p := flip_first p]> pattern_map
           else pattern_map) m l !! k =
  if decide (k ∈ l /\ String.length k = len)
  then Some (flip_first k) else m !! k.
Proof.
  revert m. induction l as [| p l IH]; intros m; cbn [foldl].
  - rewrite decide_False; [reflexivity |].
    intros [Hin _]. now apply elem_of_nil in Hin.
  - rewrite IH. destruct (decide (k ∈ l /\ String.length k = len)) as [Hl | Hl].
    + rewrite decide_True; [reflexivity |].
      split; [apply elem_of_cons; right |]; apply Hl.
    + destruct (Nat.eqb_spec (String.length p) len) as [Hp | Hp].
      * destruct (decide (k = p)) as [-> | Hkp].
        -- rewrite lookup_insert_eq, decide_True; [reflexivity |].
           split; [apply elem_of_cons; now left | assumption].
        -- rewrite lookup_insert_ne by congruence.
           rewrite decide_False; [reflexivity |].
           intros [[-> | Hin]%elem_of_cons Hlen]; [congruence | tauto].
      * rewrite decide_False; [reflexivity |].
        intros [[-> | Hin]%elem_of_cons Hlen]; [congruence | tauto].
Qed.

Lemma build_map_lookup (len : nat) (k v : string) :
  build_map len !! k = Some v <->
  k ∈ STREAK_BREAK_PATTERNS /\ String.length k = len /\ v = flip_first k.
Proof.
  unfold build_map. rewrite build_map_fold.
  destruct (decide _) as [[Hin Hlen] | Hno].
  - split; [intros [= <-]; auto | intros (_ & _ & ->); reflexivity].
  - rewrite lookup_empty. split; [discriminate | tauto].
Qed.

Lemma build_map_lookup_None (len : nat) (k : string) :
  build_map len !! k = None <->
  ~ (k ∈ STREAK_BREAK_PATTERNS /\ String.length k = len).
Proof.
  unfold build_map. rewrite build_map_fold.
  destruct (decide _) as [Hyes | Hno]; [| rewrite lookup_empty]; split;
    solve [discriminate | tauto | intros _; reflexivity].
Qed.

Lemma flip_first_category (p : string) :
  flip_first p = "B" \/ flip_first p = "S".
Proof.
  destruct p as [| c p]; cbn; [now left |].
  destruct (Ascii.eqb c "B"); [now right | now left].
Qed.

(** Every catalogue string starts with the character of a category, and
    the table's rule sends it to the opposite category. *)
Lemma catalogue_flips :
  Forall (fun p => exists c rest,
            p = String c rest /\ opposite (String c "") = Some (flip_first p))
         STREAK_BREAK_PATTERNS.
Proof.
  unfold STREAK_BREAK_PATTERNS.
  repeat (apply Forall_cons; split;
          [eexists _, _; split; reflexivity |]).
  apply Forall_nil. done.
Qed.

(** C9. Every entry of the pattern table (the dictionaries built for the
    lengths 10 down to 5) maps its sequence to the category opposite to the
    sequence's first element. *)
Theorem pattern_table_first_category_flip
    (len : nat) (pattern_map : gmap string string) (name : string)
    (p v : string) :
  (len, pattern_map, name) ∈ maps ->
  pattern_map !! p = Some v ->
  exists c rest, p = String c rest /\ opposite (String c "") = Some v.
Proof.
  intros Hin Hp.
  apply list_elem_of_fmap in Hin as (len' & [= -> -> ->] & _).
  apply build_map_lookup in Hp as (Hcat & _ & ->).
  pose proof catalogue_flips as Hall.
  rewrite Forall_forall in Hall. exact (Hall p Hcat).
Qed.

Lemma pattern_table_first_category_flip_witness :
  exists c rest, "SBBSSB" = String c rest /\ opposite (String c "") = Some "B".
Proof.
  apply (pattern_table_first_category_flip 6 (build_map 6) "6-digit" "SBBSSB" "B").
  - unfold maps. rewrite !fmap_cons. do 4 (apply elem_of_cons; right).
    apply elem_of_cons. left. reflexivity.
  - vm_compute. reflexivity.
Defined.

(** ** Categories produced past the gates *)

Lemma find_match_inv (natural_order : list string)
    (ms : list (nat * gmap string string * string)) (v u : string) :
  find_match natural_order ms = Some (v, u) ->
  exists len pattern_map name,
    (len, pattern_map, name) ∈ ms /\
    (len <= length natural_order)%nat /\
    pattern_map !! join (lastn len natural_order) = Some v /\
    u = match_label name (join (lastn len natural_order)) v.
Proof.
  induction ms as [| [[len m] name] ms IH]; cbn [find_match]; [discriminate |].
  intros Hfind.
  assert (Hrest : find_match natural_order ms = Some (v, u) ->
                  exists len' m' name',
                    (len', m', name') ∈ (len, m, name) :: ms /\
                    (len' <= length natural_order)%nat /\
                    m' !! join (lastn len' natural_order) = Some v /\
                    u = match_label name' (join (lastn len' natural_order)) v).
  { intros (len' & m' & name' & Hin & Hrest)%IH.
    exists len', m', name'. split; [apply elem_of_cons; now right | exact Hrest]. }
  destruct (Nat.leb_spec len (length natural_order)) as [Hlen | Hlen];
    [| exact (Hrest Hfind)].
  destruct (m !! join (lastn len natural_order)) as [w |] eqn:Hlook;
    [| exact (Hrest Hfind)].
  injection Hfind as <- <-.
  exists len, m, name. split; [apply elem_of_cons; now left |].
  repeat split; assumption || reflexivity.
Qed.

Lemma detect_alternating_category (seq : list string) (alt : string) :
  detect_alternating seq = Some alt -> alt = "B" \/ alt = "S".
Proof.
  unfold detect_alternating.
  destruct (_ <? _)%nat; [discriminate |].
  destruct (adjacent_equal seq); [discriminate |].
  destruct (bool_decide _); intros [= <-]; auto.
Qed.

Lemma choose_prediction_category (natural_order : list string)
    (streak : Streak) (v u : string) :
  (forall x, x ∈ natural_order -> x = "B" \/ x = "S") ->
  choose_prediction natural_order streak = Ok (v, u) ->
  v = "B" \/ v = "S".
Proof.
  intros Hcat. unfold choose_prediction.
  destruct (find_match natural_order maps) as [[v' u'] |] eqn:Hfind.
  - intros [= <- <-].
    apply find_match_inv in Hfind as (len & m & name & Hin & _ & Hlook & _).
    apply list_elem_of_fmap in Hin as (len' & [= -> -> ->] & _).
    apply build_map_lookup in Hlook as (_ & _ & ->).
    apply flip_first_category.
  - unfold fallback_logic.
    destruct (_ && _).
    { intros [= <- _]. destruct (bool_decide _); auto. }
    destruct (detect_alternating _) as [alt |] eqn:Halt.
    { intros [= <- _]. now apply detect_alternating_category in Halt. }
    destruct (Qle_bool _ _); [intros [= <- _]; auto |].
    destruct (Qle_bool _ _); [intros [= <- _]; auto |].
    destruct (last natural_order) as [newest |] eqn:Hlast; [| discriminate].
    intros [= <- _]. apply Hcat. now apply last_Some_elem_of.
Qed.

Lemma get_bs_category (n : Z) : get_bs n = "B" \/ get_bs n = "S".
Proof. unfold get_bs. destruct (5 <=? n); auto. Qed.

Lemma in_domain_categories (recent_numbers : list Z) (recent_bs : list string)
    (x : string) :
  in_domain recent_numbers recent_bs ->
  x ∈ reverse recent_bs -> x = "B" \/ x = "S".
Proof.
  intros [_ ->] Hx. apply elem_of_reverse, list_elem_of_fmap in Hx as (n & -> & _).
  apply get_bs_category.
Qed.

(** What the engine returns past its two gates, under the documented
    domain. *)
Lemma dragonx_engine_main_path (recent_numbers : list Z)
    (recent_bs : list string) (prior : list Prediction) :
  in_domain recent_numbers recent_bs ->
  (10 <= length recent_numbers)%nat ->
  dragon_risk (count_streak (reverse recent_bs)) prior = false ->
  exists prediction used_pattern final_num,
    choose_prediction (reverse recent_bs) (count_streak (reverse recent_bs))
      = Ok (prediction, used_pattern) /\
    select_number prediction recent_numbers prior = Ok final_num /\
    dragonx_engine recent_numbers recent_bs prior =
      Ok {| bs := prediction;
            num := PInt final_num;
            confidence := final_confidence used_pattern prior;
            logic := used_pattern;
            bias := bias_of used_pattern |}.
Proof.
  intros Hdom Hlen Hrisk.
  rewrite dragonx_engine_past_gates by assumption.
  destruct (choose_prediction_total (reverse recent_bs)
              (count_streak (reverse recent_bs))) as (v & u & Hv).
  { now apply (in_domain_nonempty recent_numbers). }
  destruct (select_number_total v recent_numbers prior) as [n Hn].
  { apply Hdom. }
  exists v, u, n. rewrite Hv. cbn [res_bind]. rewrite Hn. auto.
Qed.

Ltac solve_values :=
  repeat first [ apply List.Forall_nil
               | apply List.Forall_cons; [cbn beta; lia |] ].

(** C4, as amended.  On its documented domain the engine always returns a
    verdict, and the verdict's confidence lies in [55, 98] unless the
    verdict is the SKIP of the dragon-risk gate, whose confidence is 0. *)
Theorem confidence_clamped_unless_skip
    (recent_numbers : list Z) (recent_bs : list string)
    (prior : list Prediction) :
  in_domain recent_numbers recent_bs ->
  exists v,
    dragonx_engine recent_numbers recent_bs prior = Ok v /\
    if (10 <=? length recent_numbers)%nat
       && dragon_risk (count_streak (reverse recent_bs)) prior
    then bs v = "SKIP" /\ confidence v = 0
    else 55 <= confidence v <= 98.
Proof.
  intros Hdom.
  destruct (Nat.leb_spec 10 (length recent_numbers)) as [Hge | Hlt]; cbn [andb].
  - destruct (dragon_risk _ prior) eqn:Hrisk.
    + exists skip_verdict. split; [| now split].
      unfold dragonx_engine.
      destruct (Nat.ltb_spec (length recent_numbers) 10); [lia |].
      now rewrite Hrisk.
    + destruct (dragonx_engine_main_path _ _ prior Hdom Hge Hrisk)
        as (v & u & n & _ & _ & ->).
      eexists. split; [reflexivity |]. cbn [confidence].
      apply final_confidence_range.
  - exists (statistical_fallback recent_numbers).
    split; [now apply dragonx_engine_cold |].
    unfold statistical_fallback. cbn [confidence]. lia.
Qed.

Lemma confidence_clamped_unless_skip_witness :
  exists v,
    dragonx_engine [7; 2; 7; 2; 7; 2; 7; 2; 7; 2]
      ["B"; "S"; "B"; "S"; "B"; "S"; "B"; "S"; "B"; "S"] [] = Ok v /\
    55 <= confidence v <= 98.
Proof.
  apply (confidence_clamped_unless_skip [7; 2; 7; 2; 7; 2; 7; 2; 7; 2]
           ["B"; "S"; "B"; "S"; "B"; "S"; "B"; "S"; "B"; "S"] []).
  split; [| reflexivity].
  solve_values.
Defined.

(** C4 as stated fails on the dragon-risk gate: ten ["B"] observations and
    two lost ["S"] predictions give a verdict of confidence 0. *)
Lemma confidence_clamped_counterexample :
  let recent_numbers := [7; 8; 9; 7; 8; 9; 7; 8; 9; 7] in
  let prior := [stored "11" "S" "Lose"; stored "10" "S" "Lose"] in
  exists v,
    dragonx_engine recent_numbers (get_bs <$> recent_numbers) prior = Ok v /\
    confidence v = 0 /\ ~ (55 <= confidence v <= 98).
Proof.
  eexists. split; [vm_compute; reflexivity |]. cbn. split; [reflexivity | lia].
Qed.

(** C5, as amended.  Past the cold-start gate and unless the dragon-risk
    gate answers SKIP, the engine on its documented domain suggests a
    value of the pool of the predicted category: 5..9 for ["B"], 0..4 for
    ["S"]. *)
Theorem suggested_number_in_pool
    (recent_numbers : list Z) (recent_bs : list string)
    (prior : list Prediction) :
  in_domain recent_numbers recent_bs ->
  (10 <= length recent_numbers)%nat ->
  dragon_risk (count_streak (reverse recent_bs)) prior = false ->
  exists v n,
    dragonx_engine recent_numbers recent_bs prior = Ok v /\
    num v = PInt n /\
    ((bs v = "B" /\ 5 <= n <= 9) \/ (bs v = "S" /\ 0 <= n <= 4)).
Proof.
  intros Hdom Hlen Hrisk.
  destruct (dragonx_engine_main_path _ _ prior Hdom Hlen Hrisk)
    as (v & u & n & Hv & Hn & ->).
  eexists _, n. split; [reflexivity |]. split; [reflexivity |]. cbn [bs].
  apply select_number_pool, pool_of_range in Hn.
  apply choose_prediction_category in Hv;
    [| intros x; apply (in_domain_categories recent_numbers); assumption].
  destruct Hn as [[-> Hn] | [Hne Hn]]; [now left | right].
  destruct Hv as [-> | ->]; [congruence | now split].
Qed.

Lemma suggested_number_in_pool_witness :
  exists v n,
    dragonx_engine [7; 2; 7; 2; 7; 2; 7; 2; 7; 2]
      ["B"; "S"; "B"; "S"; "B"; "S"; "B"; "S"; "B"; "S"] [] = Ok v /\
    num v = PInt n /\
    ((bs v = "B" /\ 5 <= n <= 9) \/ (bs v = "S" /\ 0 <= n <= 4)).
Proof.
  apply (suggested_number_in_pool [7; 2; 7; 2; 7; 2; 7; 2; 7; 2]
           ["B"; "S"; "B"; "S"; "B"; "S"; "B"; "S"; "B"; "S"] []).
  - split; [| reflexivity].
    solve_values.
  - simpl. lia.
  - reflexivity.
Defined.

(** C5 as stated fails at cold start: a single observation 0 gives the
    category ["S"] with the fixed suggestion 5, outside 0..4. *)
Lemma suggested_number_counterexample :
  dragonx_engine [0] [get_bs 0] [] =
    Ok {| bs := "S"; num := PInt 5; confidence := 55;
          logic := "STATISTICAL_FALLBACK"; bias := "NEUTRAL" |} /\
  ~ (0 <= 5 <= 4).
Proof. split; [reflexivity | lia]. Qed.

(** ** Longest match first *)

Lemma maps_eq :
  maps = [(10%nat, build_map 10, "10-digit"); (9%nat, build_map 9, "9-digit");
          (8%nat, build_map 8, "8-digit"); (7%nat, build_map 7, "7-digit");
          (6%nat, build_map 6, "6-digit"); (5%nat, build_map 5, "5-digit")].
Proof. reflexivity. Qed.

(** The catalogue holds nothing longer than 7 characters: the dictionaries
    for the lengths 8, 9 and 10 are empty. *)
Lemma catalogue_lengths :
  Forall (fun p => (String.length p <= 7)%nat) STREAK_BREAK_PATTERNS.
Proof. apply (bool_decide_unpack _). vm_compute. exact I. Qed.

Lemma build_map_long (len : nat) (k : string) :
  (8 <= len)%nat -> build_map len !! k = None.
Proof.
  intros Hlen. apply build_map_lookup_None. intros [Hin Hk].
  pose proof catalogue_lengths as Hall. rewrite Forall_forall in Hall.
  specialize (Hall k Hin). lia.
Qed.

Lemma find_match_miss (natural_order : list string) (len : nat)
    (m : gmap string string) (name : string)
    (rest : list (nat * gmap string string * string)) :
  m !! join (lastn len natural_order) = None ->
  find_match natural_order ((len, m, name) :: rest) = find_match natural_order rest.
Proof.
  intros Hnone. cbn [find_match]. rewrite Hnone.
  now destruct (len <=? length natural_order)%nat.
Qed.

Lemma find_match_hit (natural_order : list string) (len : nat)
    (m : gmap string string) (name : string)
    (rest : list (nat * gmap string string * string)) (v : string) :
  (len <= length natural_order)%nat ->
  m !! join (lastn len natural_order) = Some v ->
  find_match natural_order ((len, m, name) :: rest) =
    Some (v, match_label name (join (lastn len natural_order)) v).
Proof.
  intros Hlen Hsome. cbn [find_match]. rewrite Hsome.
  destruct (Nat.leb_spec len (length natural_order)); [reflexivity | lia].
Qed.

Lemma find_match_from_7 (natural_order : list string) :
  find_match natural_order maps =
  find_match natural_order
    [(7%nat, build_map 7, "7-digit"); (6%nat, build_map 6, "6-digit");
     (5%nat, build_map 5, "5-digit")].
Proof.
  rewrite maps_eq.
  rewrite !find_match_miss by (apply build_map_long; lia). reflexivity.
Qed.

Definition is_category (x : string) : Prop := x = "B" \/ x = "S".

Lemma join_length (l : list string) :
  Forall is_category l -> String.length (join l) = length l.
Proof.
  induction 1 as [| x l [-> | ->] _ IH]; cbn; [reflexivity | |];
    now rewrite <- IH.
Qed.

Lemma length_lastn {A : Type} (k : nat) (l : list A) :
  (k <= length l)%nat -> length (lastn k l) = k.
Proof. intros Hk. unfold lastn. rewrite length_drop. lia. Qed.

Lemma suffix_key_length (len : nat) (natural_order : list string) :
  Forall is_category natural_order ->
  (len <= length natural_order)%nat ->
  String.length (suffix_key len natural_order) = len.
Proof.
  intros Hcat Hlen. unfold suffix_key.
  rewrite join_length by (now apply Forall_drop). now apply length_lastn.
Qed.

Lemma lookup_catalogue_match (len : nat) (natural_order : list string) :
  Forall is_category natural_order ->
  catalogue_match len natural_order ->
  build_map len !! join (lastn len natural_order) =
    Some (flip_first (suffix_key len natural_order)).
Proof.
  intros Hcat [Hlen Hin]. apply build_map_lookup.
  split; [exact Hin |]. split; [| reflexivity].
  now apply suffix_key_length.
Qed.

Lemma lookup_no_catalogue_match (len : nat) (natural_order : list string) :
  (len <= length natural_order)%nat ->
  ~ catalogue_match len natural_order ->
  build_map len !! join (lastn len natural_order) = None.
Proof.
  intros Hlen Hno. apply build_map_lookup_None. intros [Hin _].
  apply Hno. now split.
Qed.

(** Which confidence and which bias the substring tests read off the label
    of a hit, for every catalogue string of the lengths 5, 6 and 7. *)
Lemma catalogue_labels :
  Forall (fun p =>
            (String.length p = 7%nat ->
             base_confidence (match_label "7-digit" p (flip_first p)) = 94) /\
            (String.length p = 6%nat ->
             base_confidence (match_label "6-digit" p (flip_first p)) = 90) /\
            (String.length p = 5%nat ->
             base_confidence (match_label "5-digit" p (flip_first p)) = 60))
         STREAK_BREAK_PATTERNS.
Proof. apply (bool_decide_unpack _). vm_compute. exact I. Qed.

Lemma six_digit_base_confidence (p : string) :
  p ∈ STREAK_BREAK_PATTERNS -> String.length p = 6%nat ->
  base_confidence (match_label "6-digit" p (flip_first p)) = 90.
Proof.
  intros Hin Hlen. pose proof catalogue_labels as Hall.
  rewrite Forall_forall in Hall. now apply (Hall p Hin).
Qed.

Lemma five_digit_base_confidence (p : string) :
  p ∈ STREAK_BREAK_PATTERNS -> String.length p = 5%nat ->
  base_confidence (match_label "5-digit" p (flip_first p)) = 60.
Proof.
  intros Hin Hlen. pose proof catalogue_labels as Hall.
  rewrite Forall_forall in Hall. now apply (Hall p Hin).
Qed.

Lemma run_length_take (c : string) (k : nat) (l : list string) :
  Z.of_nat k <= run_length c l -> take k l = replicate k c.
Proof.
  revert l. induction k as [| k IH]; intros l Hrun; [reflexivity |].
  destruct l as [| x l]; cbn [run_length] in Hrun; [lia |].
  destruct (String.eqb_spec x c) as [-> | Hne]; [| lia].
  cbn [take replicate]. f_equal. apply IH. lia.
Qed.

Lemma dragon_risk_constant_five (recent_bs : list string)
    (prior : list Prediction) :
  dragon_risk (count_streak (reverse recent_bs)) prior = true ->
  exists c, take 5 recent_bs = replicate 5 c /\ c ∈ recent_bs.
Proof.
  rewrite count_streak_reverse. unfold dragon_risk.
  intros [Hcount _]%andb_true_iff. apply Z.leb_le in Hcount.
  destruct recent_bs as [| c older]; cbn [count] in Hcount; [lia |].
  exists c. split; [| apply elem_of_cons; now left].
  cbn [take replicate]. f_equal. apply (run_length_take c 4 older). lia.
Qed.

Lemma constant_five_unlisted :
  ~ ("BBBBB" ∈ STREAK_BREAK_PATTERNS) /\ ~ ("SSSSS" ∈ STREAK_BREAK_PATTERNS).
Proof. split; apply (bool_decide_unpack _); vm_compute; exact I. Qed.

(** A history whose last five categories form a catalogue string never
    trips the dragon-risk gate: no catalogue string of length 5 is
    constant. *)
Lemma five_match_no_risk (recent_bs : list string) (prior : list Prediction) :
  Forall is_category (reverse recent_bs) ->
  catalogue_match 5 (reverse recent_bs) ->
  dragon_risk (count_streak (reverse recent_bs)) prior = false.
Proof.
  intros Hcat [_ Hin].
  destruct (dragon_risk _ prior) eqn:Hrisk; [exfalso | reflexivity].
  apply dragon_risk_constant_five in Hrisk as (c & Htake & Hc).
  unfold suffix_key in Hin. rewrite lastn_reverse, Htake, reverse_replicate in Hin.
  rewrite Forall_forall in Hcat.
  destruct (Hcat c) as [-> | ->]; [now apply elem_of_reverse | |];
    cbn in Hin; now apply constant_five_unlisted in Hin.
Qed.

Lemma in_domain_is_category (recent_numbers : list Z) (recent_bs : list string) :
  in_domain recent_numbers recent_bs -> Forall is_category (reverse recent_bs).
Proof.
  intros Hdom. apply Forall_forall. intros x Hx.
  now apply (in_domain_categories recent_numbers recent_bs).
Qed.

Lemma in_domain_length (recent_numbers : list Z) (recent_bs : list string) :
  in_domain recent_numbers recent_bs ->
  length (reverse recent_bs) = length recent_numbers.
Proof. intros [_ ->]. now rewrite length_reverse, length_fmap. Qed.

(** The base confidence the specification attaches to a table hit, by
    matched length: a scale for the lengths 6 to 10, the default 60 below. *)
Definition pattern_scale (len : nat) : Z :=
  match len with
  | 10%nat => 98
  | 9%nat => 97
  | 8%nat => 96
  | 7%nat => 94
  | 6%nat => 90
  | _ => 60
  end.

Lemma seven_digit_base_confidence (p : string) :
  p ∈ STREAK_BREAK_PATTERNS -> String.length p = 7%nat ->
  base_confidence (match_label "7-digit" p (flip_first p)) = 94.
Proof.
  intros Hin Hlen. pose proof catalogue_labels as Hall.
  rewrite Forall_forall in Hall. now apply (Hall p Hin).
Qed.

(** The scan of the table on a history whose longest catalogue suffix, among
    the lengths 5 to 10, has length [len]: the hit is the entry of that
    length. *)
Lemma find_match_longest (natural_order : list string) (len : nat) :
  Forall is_category natural_order ->
  (7 <= length natural_order)%nat ->
  (5 <= len)%nat ->
  catalogue_match len natural_order ->
  (forall len', (len < len' <= 10)%nat -> ~ catalogue_match len' natural_order) ->
  find_match natural_order maps =
    Some (flip_first (suffix_key len natural_order),
          match_label (pretty len +:+ "-digit") (suffix_key len natural_order)
            (flip_first (suffix_key len natural_order))) /\
  base_confidence
    (match_label (pretty len +:+ "-digit") (suffix_key len natural_order)
       (flip_first (suffix_key len natural_order))) = pattern_scale len.
Proof.
  intros Hcat Hlen Hfive Hmatch Hlongest.
  pose proof Hmatch as [Hle Hin].
  pose proof (suffix_key_length len natural_order Hcat Hle) as Hklen.
  pose proof catalogue_lengths as Hmax. rewrite Forall_forall in Hmax.
  specialize (Hmax _ Hin). rewrite Hklen in Hmax.
  assert (Hcases : len = 7%nat \/ len = 6%nat \/ len = 5%nat) by lia.
  rewrite find_match_from_7.
  destruct Hcases as [-> | [-> | ->]].
  - split.
    + now rewrite (find_match_hit _ _ _ _ _ _ Hle
                     (lookup_catalogue_match 7 _ Hcat Hmatch)).
    + now apply seven_digit_base_confidence.
  - split.
    + rewrite find_match_miss
        by (apply lookup_no_catalogue_match; [lia | apply Hlongest; lia]).
      now rewrite (find_match_hit _ _ _ _ _ _ Hle
                     (lookup_catalogue_match 6 _ Hcat Hmatch)).
    + now apply six_digit_base_confidence.
  - split.
    + rewrite !find_match_miss
        by (apply lookup_no_catalogue_match; [lia | apply Hlongest; lia]).
      now rewrite (find_match_hit _ _ _ _ _ _ Hle
                     (lookup_catalogue_match 5 _ Hcat Hmatch)).
    + now apply five_digit_base_confidence.
Qed.

(** C3, as amended.  The table is scanned from the longest length down and
    the scan stops at the first hit, so the longest matching suffix wins.
    For a history of at least 10 observations of the documented domain:
    - whatever shorter suffixes match, if the longest catalogue suffix
      among the lengths 5 to 10 has length [len] and the dragon-risk gate
      does not answer SKIP, the engine predicts the category of the entry
      of that length, names that length in its rationale and takes the
      base confidence of that length (94, 90, 60 for 7, 6, 5);
    - in particular, if its last 6 and its last 5 categories are both
      catalogue strings while its last 7 are not, the engine predicts the
      category of the 6-length entry with base confidence 90: it returns
      confidence 90, or 75 when the loss-rate penalty applies. *)
Theorem longest_match_first
    (recent_numbers : list Z) (recent_bs : list string)
    (prior : list Prediction) :
  in_domain recent_numbers recent_bs ->
  (10 <= length recent_numbers)%nat ->
  (forall len : nat,
     (5 <= len)%nat ->
     catalogue_match len (reverse recent_bs) ->
     (forall len', (len < len' <= 10)%nat ->
                   ~ catalogue_match len' (reverse recent_bs)) ->
     dragon_risk (count_streak (reverse recent_bs)) prior = false ->
     exists v,
       dragonx_engine recent_numbers recent_bs prior = Ok v /\
       build_map len !! suffix_key len (reverse recent_bs) = Some (bs v) /\
       logic v = match_label (pretty len +:+ "-digit")
                   (suffix_key len (reverse recent_bs)) (bs v) /\
       base_confidence (logic v) = pattern_scale len /\
       confidence v =
         Z.min 98 (Z.max 55 (penalised prior (pattern_scale len)))) /\
  (catalogue_match 6 (reverse recent_bs) ->
   catalogue_match 5 (reverse recent_bs) ->
   ~ catalogue_match 7 (reverse recent_bs) ->
   exists v,
     dragonx_engine recent_numbers recent_bs prior = Ok v /\
     build_map 6 !! suffix_key 6 (reverse recent_bs) = Some (bs v) /\
     base_confidence (logic v) = 90 /\
     confidence v = if Qgt_bool (loss_rate prior) (6 # 10) then 75 else 90).
Proof.
  intros Hdom Hlen.
  pose proof (in_domain_is_category _ _ Hdom) as Hcat.
  pose proof (in_domain_length _ _ Hdom) as Hno.
  assert (Hgeneral : forall len : nat,
            (5 <= len)%nat ->
            catalogue_match len (reverse recent_bs) ->
            (forall len', (len < len' <= 10)%nat ->
                          ~ catalogue_match len' (reverse recent_bs)) ->
            dragon_risk (count_streak (reverse recent_bs)) prior = false ->
            exists v,
              dragonx_engine recent_numbers recent_bs prior = Ok v /\
              build_map len !! suffix_key len (reverse recent_bs) = Some (bs v) /\
              logic v = match_label (pretty len +:+ "-digit")
                          (suffix_key len (reverse recent_bs)) (bs v) /\
              base_confidence (logic v) = pattern_scale len /\
              confidence v =
                Z.min 98 (Z.max 55 (penalised prior (pattern_scale len)))).
  { intros len Hfive Hmatch Hlongest Hrisk.
    destruct (dragonx_engine_main_path _ _ prior Hdom Hlen Hrisk)
      as (v & u & n & Hv & _ & ->).
    destruct (find_match_longest (reverse recent_bs) len Hcat ltac:(lia)
                Hfive Hmatch Hlongest) as [Hfind Hbase].
    unfold choose_prediction in Hv. rewrite Hfind in Hv.
    injection Hv as <- <-.
    eexists. split; [reflexivity |]. cbn [bs logic confidence].
    split; [now apply lookup_catalogue_match |].
    split; [reflexivity |]. split; [exact Hbase |].
    unfold final_confidence. now rewrite Hbase. }
  split; [exact Hgeneral |].
  intros H6 H5 H7.
  destruct (Hgeneral 6%nat ltac:(lia) H6) as (v & Hv & Hbs & _ & Hbase & Hconf).
  - intros len' Hlen' Hmatch.
    assert (Hcases : len' = 7%nat \/ (8 <= len')%nat) by lia.
    destruct Hcases as [-> | Hlong]; [now apply H7 |].
    destruct Hmatch as [Hle Hin].
    pose proof (suffix_key_length len' _ Hcat Hle) as Hklen.
    pose proof catalogue_lengths as Hmax. rewrite Forall_forall in Hmax.
    specialize (Hmax _ Hin). lia.
  - now apply five_match_no_risk.
  - exists v. split; [exact Hv |]. split; [exact Hbs |].
    split; [exact Hbase |]. rewrite Hconf. unfold penalised, pattern_scale.
    now destruct (Qgt_bool _ _).
Qed.

(** The history B B S S B S S B B S, whose last 5, 6 and 7 categories are all
    catalogue strings: the 7-length entry is taken. *)
Lemma longest_match_first_witness :
  exists v,
    dragonx_engine [1; 7; 7; 1; 1; 7; 1; 1; 7; 7]
      (get_bs <$> [1; 7; 7; 1; 1; 7; 1; 1; 7; 7]) [] = Ok v /\
    build_map 7 !! suffix_key 7 (reverse (get_bs <$> [1; 7; 7; 1; 1; 7; 1; 1; 7; 7]))
      = Some (bs v) /\
    logic v = match_label (pretty 7%nat +:+ "-digit")
                (suffix_key 7 (reverse (get_bs <$> [1; 7; 7; 1; 1; 7; 1; 1; 7; 7])))
                (bs v) /\
    base_confidence (logic v) = pattern_scale 7 /\
    confidence v = Z.min 98 (Z.max 55 (penalised [] (pattern_scale 7))).
Proof.
  refine (proj1 (longest_match_first [1; 7; 7; 1; 1; 7; 1; 1; 7; 7]
                   (get_bs <$> [1; 7; 7; 1; 1; 7; 1; 1; 7; 7]) [] _ _)
            7%nat _ _ _ _).
  - split; [solve_values | reflexivity].
  - simpl. lia.
  - lia.
  - split; [simpl; lia |]. apply (bool_decide_unpack _). vm_compute. exact I.
  - intros len' Hlen' [Hle Hin]. simpl in Hle.
    assert (Hcases : len' = 8%nat \/ len' = 9%nat \/ len' = 10%nat) by lia.
    destruct Hcases as [-> | [-> | ->]]; revert Hin;
      apply (bool_decide_unpack _); vm_compute; exact I.
  - reflexivity.
Defined.

(** C3 as stated fails when a 7-length suffix matches too.  The history
    B B S S B S S B B S (oldest first) ends in the catalogue strings
    ["SSBBS"], ["BSSBBS"] and ["SBSSBBS"]: the engine takes the 7-length
    entry, predicts ["B"] with confidence 94, while the 6-length entry
    maps to ["S"]. *)
Lemma longest_match_six_over_five_counterexample :
  let recent_numbers := [1; 7; 7; 1; 1; 7; 1; 1; 7; 7] in
  let recent_bs := get_bs <$> recent_numbers in
  suffix_key 6 (reverse recent_bs) = "BSSBBS" /\
  suffix_key 5 (reverse recent_bs) = "SSBBS" /\
  build_map 6 !! "BSSBBS" = Some "S" /\
  build_map 5 !! "SSBBS" = Some "B" /\
  dragonx_engine recent_numbers recent_bs [] =
    Ok {| bs := "B"; num := PInt 7; confidence := 94;
          logic := "7-digit MATCH: SBSSBBS → B"; bias := "PATTERN_BIAS" |}.
Proof. repeat split; vm_compute; reflexivity. Qed.

(** C10, as amended.  For a history of at least 10 observations of the
    documented domain whose last 5 categories form a catalogue string while
    neither its last 6 nor its last 7 do (nothing longer is listed), the
    engine predicts from the 5-length entry with the default base
    confidence 60, not a value of the pattern-length scale: it returns
    confidence 60, or 55 when the loss-rate penalty applies. *)
Theorem five_digit_match_default_confidence
    (recent_numbers : list Z) (recent_bs : list string)
    (prior : list Prediction) :
  in_domain recent_numbers recent_bs ->
  (10 <= length recent_numbers)%nat ->
  catalogue_match 5 (reverse recent_bs) ->
  ~ catalogue_match 6 (reverse recent_bs) ->
  ~ catalogue_match 7 (reverse recent_bs) ->
  exists v,
    dragonx_engine recent_numbers recent_bs prior = Ok v /\
    build_map 5 !! suffix_key 5 (reverse recent_bs) = Some (bs v) /\
    logic v = match_label "5-digit" (suffix_key 5 (reverse recent_bs)) (bs v) /\
    base_confidence (logic v) = 60 /\
    confidence v = if Qgt_bool (loss_rate prior) (6 # 10) then 55 else 60.
Proof.
  intros Hdom Hlen H5 H6 H7.
  pose proof (in_domain_is_category _ _ Hdom) as Hcat.
  pose proof (in_domain_length _ _ Hdom) as Hno.
  pose proof (five_match_no_risk recent_bs prior Hcat H5) as Hrisk.
  destruct (dragonx_engine_main_path _ _ prior Hdom Hlen Hrisk)
    as (v & u & n & Hv & _ & ->).
  unfold choose_prediction in Hv.
  rewrite find_match_from_7 in Hv.
  rewrite !find_match_miss in Hv
    by (apply lookup_no_catalogue_match; [lia | assumption]).
  rewrite (find_match_hit _ _ _ _ _ _ (proj1 H5)
             (lookup_catalogue_match 5 _ Hcat H5)) in Hv.
  injection Hv as <- <-.
  eexists. split; [reflexivity |]. cbn [bs logic confidence].
  assert (Hbase : base_confidence
            (match_label "5-digit" (join (lastn 5 (reverse recent_bs)))
               (flip_first (suffix_key 5 (reverse recent_bs)))) = 60).
  { apply five_digit_base_confidence; [apply H5 |].
    apply suffix_key_length; [assumption | lia]. }
  split; [now apply lookup_catalogue_match |].
  split; [reflexivity |]. split; [exact Hbase |].
  unfold final_confidence, penalised. rewrite Hbase.
  now destruct (Qgt_bool _ _).
Qed.

Lemma five_digit_match_default_confidence_witness :
  exists v,
    dragonx_engine [7; 1; 1; 1; 7; 1; 7; 7; 7; 7]
      (get_bs <$> [7; 1; 1; 1; 7; 1; 7; 7; 7; 7]) [] = Ok v /\
    build_map 5 !! suffix_key 5 (reverse (get_bs <$> [7; 1; 1; 1; 7; 1; 7; 7; 7; 7]))
      = Some (bs v) /\
    logic v = match_label "5-digit"
                (suffix_key 5 (reverse (get_bs <$> [7; 1; 1; 1; 7; 1; 7; 7; 7; 7])))
                (bs v) /\
    base_confidence (logic v) = 60 /\
    confidence v = if Qgt_bool (loss_rate []) (6 # 10) then 55 else 60.
Proof.
  apply (five_digit_match_default_confidence [7; 1; 1; 1; 7; 1; 7; 7; 7; 7]
           (get_bs <$> [7; 1; 1; 1; 7; 1; 7; 7; 7; 7]) []).
  - split; [solve_values | reflexivity].
  - simpl. lia.
  - split; [simpl; lia |]. apply (bool_decide_unpack _). vm_compute. exact I.
  - intros [_ Hin]. revert Hin. apply (bool_decide_unpack _). vm_compute. exact I.
  - intros [_ Hin]. revert Hin. apply (bool_decide_unpack _). vm_compute. exact I.
Defined.

(** C10 as stated fails below 10 observations.  The five observations
    B S S S B (oldest first) form the catalogue string ["BSSSB"] and nothing
    longer can match; no prediction was lost, yet the engine returns the
    cold-start confidence 55, not 60. *)
Lemma five_digit_match_counterexample :
  let recent_numbers := [7; 1; 1; 1; 7] in
  let recent_bs := get_bs <$> recent_numbers in
  suffix_key 5 (reverse recent_bs) = "BSSSB" /\
  build_map 5 !! "BSSSB" = Some "S" /\
  Qgt_bool (loss_rate []) (6 # 10) = false /\
  dragonx_engine recent_numbers recent_bs [] =
    Ok {| bs := "S"; num := PInt 5; confidence := 55;
          logic := "STATISTICAL_FALLBACK"; bias := "NEUTRAL" |}.
Proof. repeat split; vm_compute; reflexivity. Qed.

(** ** The polling job *)

Lemma pyval_eqb_eq (a b : pyval) : pyval_eqb a b = true <-> a = b.
Proof.
  destruct a as [x | x], b as [y | y]; cbn; split; try discriminate.
  - intros ->%Z.eqb_eq. reflexivity.
  - intros [= ->]. apply Z.eqb_refl.
  - intros ->%String.eqb_eq. reflexivity.
  - intros [= ->]. apply String.eqb_refl.
Qed.

Lemma set_result_same (p : Prediction) : set_result p (p_result p) = p.
Proof. now destruct p. Qed.

Lemma grade_set_result (p : Prediction) (r bs_now : string) (number : Z) :
  grade (set_result p r) bs_now number = grade p bs_now number.
Proof. reflexivity. Qed.

Lemma take_cons_take {A : Type} (x : A) (l : list A) (n : nat) :
  take (S n) (x :: take (S n) l) = take (S n) (x :: l).
Proof. cbn [take]. rewrite take_take. do 2 f_equal. lia. Qed.

Lemma grade_last_take (period bs_now : string) (number : Z)
    (l : list Prediction) (n : nat) :
  grade_last period bs_now number (take (S n) l) =
  take (S n) (grade_last period bs_now number l).
Proof.
  destruct l as [| p l]; [reflexivity |]. cbn [take grade_last].
  now destruct (String.eqb (p_period p) period).
Qed.

(** Whether the feed delivered a usable first entry. *)
Definition feed_failure (resp : response) : bool :=
  match resp with
  | Json (AList (Content _ _ :: _)) => false
  | _ => true
  end.

(** Every observation of the feed [resp] for [period] carries [number]. *)
Definition same_observation (period : string) (number : Z)
    (resp : response) : Prop :=
  forall n items, resp = Json (AList (Content period n :: items)) -> n = number.

(** [g] is the stored prediction [p] up to its result field. *)
Definition same_but_result (p g : Prediction) : Prop :=
  p_period g = p_period p /\ p_bs g = p_bs p /\ p_num g = p_num p /\
  p_confidence g = p_confidence p /\ p_logic g = p_logic p /\
  p_bias g = p_bias p.

(** The write [last_pred["result"] = r]: the result becomes [r], nothing
    else changes. *)
Lemma set_result_writes (p : Prediction) (r : string) :
  same_but_result p (set_result p r) /\ p_result (set_result p r) = r.
Proof. now repeat split. Qed.

Section JobProperties.

Variable py_int : string -> option Z.
Variable py_str : Z -> string.

Local Abbreviation job := (prediction_job py_int py_str).
Local Abbreviation cycles := (run_cycles py_int py_str).

(** The prediction log after a cycle that received an observation: the
    graded log, with one pending prediction in front when the cycle
    completed and none was stored for the next period. *)
Lemma job_predictions (st : State) (period : string) (number : Z)
    (items : list entry) :
  let preds1 := grade_last period (get_bs number) number (predictions st) in
  predictions (job st (Json (AList (Content period number :: items)))) = preds1 \/
  exists new,
    p_result new = "P" /\
    predictions (job st (Json (AList (Content period number :: items))))
      = appendleft 200 new preds1.
Proof.
  unfold prediction_job, job_body.
  destruct (py_int period) as [k |]; [| now left].
  destruct (existsb _ _); [now left |].
  destruct (dragonx_engine _ _ _) as [pred | e]; [| now left].
  right. eexists. split; [| reflexivity]. reflexivity.
Qed.

Lemma job_feed_failure (st : State) (resp : response) :
  feed_failure resp = true ->
  job_body py_int py_str st resp = (st, Some
    match resp with
    | Raised e => e
    | Json (AList (_ :: _)) => KeyError
    | Json _ => ValueError
    end).
Proof.
  destruct resp as [e | [| [| [| period number] items]]]; cbn;
    intros Hfail; try reflexivity; discriminate.
Qed.

(** A cycle keeps a stored prediction as it is, wherever it sits in the
    log, provided the observation, if it is for that prediction's
    period, grades it to the result it already has. *)
Lemma job_keeps (st : State) (resp : response)
    (pre : list Prediction) (p : Prediction) (older : list Prediction) :
  predictions st = take 200 (pre ++ p :: older)%list ->
  (forall n items, resp = Json (AList (Content (p_period p) n :: items)) ->
                   grade p (get_bs n) n = p_result p) ->
  exists pre',
    (length pre' <= S (length pre))%nat /\
    predictions (job st resp) = take 200 (pre' ++ p :: older)%list.
Proof.
  intros Hst Hsame.
  destruct (feed_failure resp) eqn:Hfail.
  { exists pre. split; [lia |].
    unfold prediction_job. now rewrite job_feed_failure. }
  destruct resp as [e | [| [| [| period number] items]]]; try discriminate.
  assert (Hgraded : exists pre1,
            length pre1 = length pre /\
            grade_last period (get_bs number) number (predictions st)
              = take 200 (pre1 ++ p :: older)%list).
  { rewrite Hst, grade_last_take.
    destruct pre as [| q pre]; cbn [app grade_last].
    - exists []. split; [reflexivity |]. cbn [app].
      destruct (String.eqb_spec (p_period p) period) as [Hp | _];
        [| reflexivity].
      subst period. rewrite (Hsame number items eq_refl).
      now rewrite set_result_same.
    - destruct (String.eqb (p_period q) period).
      + now exists (set_result q (grade q (get_bs number) number) :: pre).
      + now exists (q :: pre). }
  destruct Hgraded as (pre1 & Hlen1 & Hpreds1).
  destruct (job_predictions st period number items) as [-> | (new & _ & ->)].
  - exists pre1. split; [lia | exact Hpreds1].
  - exists (new :: pre1). split; [cbn; lia |].
    unfold appendleft. rewrite Hpreds1. apply take_cons_take.
Qed.

Lemma cycles_keep (feed : list response) (st : State)
    (pre : list Prediction) (p : Prediction) (older : list Prediction) :
  predictions st = take 200 (pre ++ p :: older)%list ->
  Forall (fun resp =>
            forall n items,
              resp = Json (AList (Content (p_period p) n :: items)) ->
              grade p (get_bs n) n = p_result p) feed ->
  exists pre',
    (length pre' <= length pre + length feed)%nat /\
    predictions (cycles st feed) = take 200 (pre' ++ p :: older)%list.
Proof.
  revert st pre. induction feed as [| resp feed IH]; intros st pre Hst Hfeed.
  - exists pre. split; [cbn; lia | exact Hst].
  - inversion Hfeed as [| ? ? Hresp Hrest]; subst.
    destruct (job_keeps st resp pre p older Hst Hresp) as (pre1 & Hlen1 & Hst1).
    destruct (IH (job st resp) pre1 Hst1 Hrest) as (pre2 & Hlen2 & Hst2).
    exists pre2. split; [cbn [length]; lia | exact Hst2].
Qed.

Lemma grade_cases (p : Prediction) (bs_now : string) (number : Z) :
  (p_bs p = bs_now /\ p_num p = PInt number ->
   grade p bs_now number = "Jackpot") /\
  (p_bs p = bs_now /\ p_num p <> PInt number ->
   grade p bs_now number = "Win") /\
  (p_bs p <> bs_now -> grade p bs_now number = "Lose").
Proof.
  unfold grade.
  destruct (String.eqb_spec (p_bs p) bs_now) as [Hbs | Hbs];
    destruct (pyval_eqb (p_num p) (PInt number)) eqn:Hnum; cbn [andb];
    (split; [| split]).
  - reflexivity.
  - apply pyval_eqb_eq in Hnum. tauto.
  - tauto.
  - intros [_ Heq]. apply pyval_eqb_eq in Heq. congruence.
  - reflexivity.
  - tauto.
  - tauto.
  - tauto.
  - reflexivity.
  - tauto.
  - tauto.
  - reflexivity.
Qed.

Lemma job_grades (st : State) (period : string) (number : Z)
    (items : list entry) (last_pred : Prediction) (older : list Prediction) :
  predictions st = last_pred :: older ->
  p_period last_pred = period ->
  let graded :=
    set_result last_pred (grade last_pred (get_bs number) number) in
  let st' := job st (Json (AList (Content period number :: items))) in
  predictions st' = graded :: older \/
  exists new,
    p_result new = "P" /\ predictions st' = take 200 (new :: graded :: older).
Proof.
  intros Hst <-. cbv zeta.
  pose proof (job_predictions st (p_period last_pred) number items) as Hjob.
  cbv zeta in Hjob. rewrite Hst in Hjob. cbn [grade_last] in Hjob.
  rewrite String.eqb_refl in Hjob. exact Hjob.
Qed.

(** C6. When the arriving observation's period equals the period of the
    most recent stored prediction, the job sets that prediction's result
    to Jackpot if both its category and its suggested value equal the
    observed ones, to Win if only the category does, to Lose otherwise.
    The stored entry keeps its other fields and stays in the log, behind
    the new pending prediction when the cycle stores one. *)
Theorem grading_three_way (st : State) (period : string) (number : Z)
    (items : list entry) (last_pred : Prediction) (older : list Prediction) :
  predictions st = last_pred :: older ->
  p_period last_pred = period ->
  exists graded,
    same_but_result last_pred graded /\
    (p_bs last_pred = get_bs number /\ p_num last_pred = PInt number ->
     p_result graded = "Jackpot") /\
    (p_bs last_pred = get_bs number /\ p_num last_pred <> PInt number ->
     p_result graded = "Win") /\
    (p_bs last_pred <> get_bs number -> p_result graded = "Lose") /\
    let st' := job st (Json (AList (Content period number :: items))) in
    predictions st' = graded :: older \/
    exists new,
      p_result new = "P" /\
      predictions st' = take 200 (new :: graded :: older).
Proof.
  intros Hst Hperiod.
  exists (set_result last_pred (grade last_pred (get_bs number) number)).
  destruct (set_result_writes last_pred (grade last_pred (get_bs number) number))
    as [Hsame ->].
  destruct (grade_cases last_pred (get_bs number) number) as (HJ & HW & HL).
  split; [exact Hsame |].
  split; [exact HJ |]. split; [exact HW |]. split; [exact HL |].
  exact (job_grades st period number items last_pred older Hst Hperiod).
Qed.

(** C7. Grading is idempotent.  Once the most recent prediction has been
    graded by the observation of its period, the cycles that follow leave
    the graded entry, and with it its result, as they are, when every
    observation they receive for that period is this same observation: the
    entry found in the log after the grading cycle is found again,
    unchanged, after any such later cycles, at most one place further back
    per cycle, until the capacity of 200 pushes it out. *)
Theorem grading_idempotent_same_observation
    (st : State) (period : string) (number : Z) (items : list entry)
    (last_pred : Prediction) (older : list Prediction)
    (feed : list response) :
  predictions st = last_pred :: older ->
  (length (predictions st) <= 200)%nat ->
  p_period last_pred = period ->
  Forall (same_observation period number) feed ->
  let st1 := job st (Json (AList (Content period number :: items))) in
  exists graded,
    same_but_result last_pred graded /\
    p_result graded = grade last_pred (get_bs number) number /\
    (exists pre1,
       (length pre1 <= 1)%nat /\
       predictions st1 = take 200 (pre1 ++ graded :: older)%list) /\
    exists pre,
      (length pre <= 1 + length feed)%nat /\
      predictions (cycles st1 feed) = take 200 (pre ++ graded :: older)%list.
Proof.
  intros Hst Hcap Hperiod Hfeed st1.
  set (graded := set_result last_pred (grade last_pred (get_bs number) number)).
  exists graded.
  destruct (set_result_writes last_pred (grade last_pred (get_bs number) number))
    as [Hsame Hresult].
  split; [exact Hsame |]. split; [exact Hresult |].
  assert (Hst1 : exists pre1, (length pre1 <= 1)%nat /\
            predictions st1 = take 200 (pre1 ++ graded :: older)%list).
  { destruct (job_grades st period number items last_pred older Hst Hperiod)
      as [Hkeep | (new & _ & Hpush)].
    - exists []. split; [cbn; lia |]. cbn [app].
      rewrite take_ge; [exact Hkeep |].
      rewrite Hst in Hcap. exact Hcap.
    - exists [new]. split; [cbn; lia | exact Hpush]. }
  split; [exact Hst1 |].
  destruct Hst1 as (pre1 & Hlen1 & Hst1).
  destruct (cycles_keep feed st1 pre1 graded older Hst1) as (pre & Hlen & Hfinal).
  - apply (Forall_impl _ _ _ Hfeed). intros resp Hresp n items' ->.
    subst graded. cbn [p_period set_result] in Hresp.
    rewrite grade_set_result. cbn [p_result set_result].
    rewrite Hperiod in Hresp. now rewrite (Hresp n items' eq_refl).
  - exists pre. split; [lia | exact Hfinal].
Qed.

(** C8. When the fetch raises (network error, timeout, error status,
    undecodable body) or the payload is not a non-empty list with a
    usable first entry, the cycle ends in the exception handler with the
    history and prediction logs exactly as they were, and the scheduler
    goes on with the next cycles from that same state. *)
Theorem feed_failure_no_mutation (st : State) (resp : response)
    (feed : list response) :
  feed_failure resp = true ->
  (exists e, job_body py_int py_str st resp = (st, Some e)) /\
  job st resp = st /\
  cycles st (resp :: feed) = cycles st feed.
Proof.
  intros Hfail. pose proof (job_feed_failure st resp Hfail) as Hbody.
  assert (Hjob : job st resp = st).
  { unfold prediction_job. now rewrite Hbody. }
  split; [eauto |]. split; [exact Hjob |].
  unfold run_cycles. cbn [foldl]. now rewrite Hjob.
Qed.

End JobProperties.

(** ** Concrete runs of the job *)

(** A state holding one pending cold-start prediction for period 10. *)
Definition waiting_for_10 : State :=
  {| trends := [mkTrend "9" 7 "B"];
     predictions := [stored "10" "B" "P"] |}.

Lemma grading_three_way_witness :
  exists graded,
    same_but_result (stored "10" "B" "P") graded /\
    (p_bs (stored "10" "B" "P") = get_bs 7 /\
     p_num (stored "10" "B" "P") = PInt 7 -> p_result graded = "Jackpot") /\
    (p_bs (stored "10" "B" "P") = get_bs 7 /\
     p_num (stored "10" "B" "P") <> PInt 7 -> p_result graded = "Win") /\
    (p_bs (stored "10" "B" "P") <> get_bs 7 -> p_result graded = "Lose") /\
    let st' := prediction_job int_decimal str_decimal waiting_for_10
                 (Json (AList [Content "10" 7])) in
    predictions st' = graded :: [] \/
    exists new,
      p_result new = "P" /\
      predictions st' = take 200 (new :: graded :: []).
Proof.
  apply (grading_three_way int_decimal str_decimal waiting_for_10 "10" 7 []
           (stored "10" "B" "P") []); reflexivity.
Defined.

Lemma grading_idempotent_same_observation_witness :
  let st1 := prediction_job int_decimal str_decimal waiting_for_10
               (Json (AList [Content "10" 7])) in
  exists graded,
    same_but_result (stored "10" "B" "P") graded /\
    p_result graded = grade (stored "10" "B" "P") (get_bs 7) 7 /\
    (exists pre1,
       (length pre1 <= 1)%nat /\
       predictions st1 = take 200 (pre1 ++ graded :: [])%list) /\
    exists pre,
      (length pre <= 1 + length [Json (AList [Content "10" 7]);
                                 Json (AList [Content "11" 3]);
                                 Json (AList [Content "10" 7])])%nat /\
      predictions (run_cycles int_decimal str_decimal st1
                     [Json (AList [Content "10" 7]);
                      Json (AList [Content "11" 3]);
                      Json (AList [Content "10" 7])])
        = take 200 (pre ++ graded :: [])%list.
Proof.
  apply (grading_idempotent_same_observation int_decimal str_decimal
           waiting_for_10 "10" 7 [] (stored "10" "B" "P") []).
  - reflexivity.
  - simpl. lia.
  - reflexivity.
  - repeat first [ apply List.Forall_nil | apply List.Forall_cons ];
      intros n items Heq; now inversion Heq.
Defined.

(** Outside the hypothesis of the idempotence theorem.  The code has no
    test on the result being pending, so the most recent prediction is
    graded by whatever observation of its period arrives.  When the feed
    goes back in period (10, 9, then 10 again) the prediction for period
    10 stays the most recent one after it is graded Win, a prediction for
    period 11 being stored already; an observation of period 10 with
    another value then grades it Lose. *)
Lemma regrade_on_backward_feed :
  let observation period number := Json (AList [Content period number]) in
  let st3 := run_cycles int_decimal str_decimal (mkState [] [])
               [observation "10" 7; observation "9" 3; observation "10" 7] in
  let st4 := prediction_job int_decimal str_decimal st3 (observation "10" 2) in
  head (predictions st3) = Some (stored "10" "B" "Win") /\
  head (predictions st4) = Some (stored "10" "B" "Lose").
Proof. split; vm_compute; reflexivity. Qed.

Lemma feed_failure_no_mutation_witness :
  (exists e, job_body int_decimal str_decimal waiting_for_10 (Json (AList []))
             = (waiting_for_10, Some e)) /\
  prediction_job int_decimal str_decimal waiting_for_10 (Json (AList []))
    = waiting_for_10 /\
  run_cycles int_decimal str_decimal waiting_for_10
    (Json (AList []) :: [Json (AList [Content "10" 7])])
    = run_cycles int_decimal str_decimal waiting_for_10
        [Json (AList [Content "10" 7])].
Proof.
  apply (feed_failure_no_mutation int_decimal str_decimal waiting_for_10
           (Json (AList [])) [Json (AList [Content "10" 7])]).
  reflexivity.
Defined.

(** * Further properties of the code *)

(** ** Sequence analyzers *)

Lemma run_length_spec (c : string) (l : list string) :
  exists k : nat,
    run_length c l = Z.of_nat k /\ (k <= length l)%nat /\
    take k l = replicate k c /\ l !! k <> Some c.
Proof.
  induction l as [| x l (k & Hrun & Hlen & Htake & Hnext)]; cbn [run_length].
  - exists 0%nat. repeat split; [cbn; lia | discriminate].
  - destruct (String.eqb_spec x c) as [-> | Hne].
    + exists (S k). rewrite Hrun. cbn [take replicate length].
      repeat split; [lia | lia | now f_equal | exact Hnext].
    + exists 0%nat. repeat split; [cbn; lia |]. cbn. congruence.
Qed.

(** X1. [count_streak] of a non-empty sequence returns its last element and
    the length of the maximal run of that element at the end: the run is
    made of that element only, and the element just before it, if any,
    is a different one. *)
Theorem count_streak_maximal_run (seq : list string) :
  seq <> [] ->
  exists (v : string) (n : nat),
    count_streak seq = mkStreak (Some v) (Z.of_nat n) /\
    last seq = Some v /\
    (1 <= n <= length seq)%nat /\
    lastn n seq = replicate n v /\
    ((n < length seq)%nat -> seq !! (length seq - S n)%nat <> Some v).
Proof.
  intros Hne. rewrite <- (reverse_involutive seq) in *.
  destruct (reverse seq) as [| x older].
  { now rewrite reverse_nil in Hne. }
  destruct (run_length_spec x older) as (k & Hrun & Hlen & Htake & Hnext).
  exists x, (S k). rewrite count_streak_reverse, Hrun.
  rewrite length_reverse. cbn [length].
  split; [do 2 f_equal; lia |].
  split; [now rewrite last_reverse |].
  split; [lia |].
  split.
  - rewrite lastn_reverse. cbn [take]. rewrite Htake.
    change (x :: replicate k x) with (replicate (S k) x).
    apply reverse_replicate.
  - intros Hlt. rewrite reverse_lookup by (cbn [length]; lia).
    cbn [length].
    replace (S (length older) - S (S (length older) - S (S k)))%nat
      with (S k) by lia.
    exact Hnext.
Qed.

Lemma count_streak_maximal_run_witness :
  exists (v : string) (n : nat),
    count_streak ["B"; "S"; "B"; "B"; "B"] = mkStreak (Some v) (Z.of_nat n) /\
    last ["B"; "S"; "B"; "B"; "B"] = Some v /\
    (1 <= n <= length ["B"; "S"; "B"; "B"; "B"])%nat /\
    lastn n ["B"; "S"; "B"; "B"; "B"] = replicate n v /\
    ((n < length ["B"; "S"; "B"; "B"; "B"])%nat ->
     ["B"; "S"; "B"; "B"; "B"] !! (length ["B"; "S"; "B"; "B"; "B"] - S n)%nat
       <> Some v).
Proof. apply (count_streak_maximal_run ["B"; "S"; "B"; "B"; "B"]). discriminate. Defined.

Lemma adjacent_equal_false (seq : list string) :
  adjacent_equal seq = false <->
  forall (i : nat) (x y : string),
    seq !! i = Some x -> seq !! S i = Some y -> x <> y.
Proof.
  induction seq as [| x seq IH]; [split; [intros _ i ? ? [=] | reflexivity] |].
  destruct seq as [| y rest].
  { split; [intros _ [| i] ? ? _ [=] | reflexivity]. }
  cbn [adjacent_equal]. rewrite orb_false_iff, IH. split.
  - intros [Hxy Hrest] [| i] a b.
    + intros [= <-] [= <-]. apply String.eqb_neq in Hxy. congruence.
    + apply Hrest.
  - intros Hall. split.
    + apply String.eqb_neq. intros Heq.
      apply (Hall 0%nat x y); [reflexivity | reflexivity | congruence].
    + intros i a b. apply (Hall (S i)).
Qed.

(** X2. [detect_alternating] answers exactly on sequences of at least three
    elements without two equal neighbours; its answer differs from the
    last element, and appending it gives a sequence on which the detector
    answers again: the answer continues the alternation. *)
Theorem detect_alternating_continues (seq : list string) :
  (is_Some (detect_alternating seq) <->
   (3 <= length seq)%nat /\
   forall (i : nat) (x y : string),
     seq !! i = Some x -> seq !! S i = Some y -> x <> y) /\
  (forall c, detect_alternating seq = Some c ->
     last seq <> Some c /\
     is_Some (detect_alternating (seq ++ [c])%list)).
Proof.
  split.
  - unfold detect_alternating.
    destruct (Nat.ltb_spec (length seq) 3) as [Hlt | Hge].
    { split; [intros [? [=]] | intros [? _]; lia]. }
    destruct (adjacent_equal seq) eqn:Hadj.
    + split; [intros [? [=]] |]. intros [_ Hall].
      apply adjacent_equal_false in Hall. congruence.
    + split; [| eauto]. intros _. split; [exact Hge |].
      now apply adjacent_equal_false.
  - intros c Hc. unfold detect_alternating in Hc.
    destruct (Nat.ltb_spec (length seq) 3) as [Hlt | Hge]; [discriminate |].
    destruct (adjacent_equal seq) eqn:Hadj; [discriminate |].
    assert (Hlast : last seq <> Some c).
    { destruct (bool_decide_reflect (last seq = Some "B")) as [Heq | Hneq];
        injection Hc as <-; [rewrite Heq |]; congruence. }
    split; [exact Hlast |].
    unfold detect_alternating. rewrite length_app. cbn [length].
    destruct (Nat.ltb_spec (length seq + 1) 3) as [Hlt | _]; [lia |].
    assert (Hadj' : adjacent_equal (seq ++ [c]) = false).
    { apply adjacent_equal_false. intros i x y Hx Hy.
      destruct (decide (S i < length seq)%nat) as [Hin | Hout].
      - rewrite lookup_app_l in Hx, Hy by lia.
        now apply (proj1 (adjacent_equal_false seq) Hadj i).
      - assert (Hi : S i = length seq).
        { apply lookup_lt_Some in Hy. rewrite length_app in Hy.
          cbn [length] in Hy. lia. }
        rewrite lookup_app_l in Hx by lia.
        rewrite lookup_app_r in Hy by lia.
        rewrite Hi, Nat.sub_diag in Hy. injection Hy as <-.
        rewrite last_lookup in Hlast.
        replace (pred (length seq)) with i in Hlast by lia. congruence. }
    rewrite Hadj'. eauto.
Qed.

Lemma detect_alternating_continues_witness :
  last ["B"; "S"; "B"] <> Some "S" /\
  is_Some (detect_alternating (["B"; "S"; "B"] ++ ["S"])%list).
Proof.
  apply (proj2 (detect_alternating_continues ["B"; "S"; "B"]) "S").
  reflexivity.
Defined.

(** X3. [has_two_consecutive_losses] holds exactly when the two most recent
    graded predictions exist and both lost; pending predictions play no
    part, wherever they stand in the log. *)
Theorem has_two_consecutive_losses_graded_only (prior : list Prediction) :
  (has_two_consecutive_losses prior = true <->
   exists p1 p2 rest,
     List.filter is_graded prior = p1 :: p2 :: rest /\
     p_result p1 = "Lose" /\ p_result p2 = "Lose") /\
  (forall pre p post,
     prior = (pre ++ p :: post)%list -> p_result p = "P" ->
     has_two_consecutive_losses prior =
     has_two_consecutive_losses (pre ++ post)%list).
Proof.
  split.
  - unfold has_two_consecutive_losses.
    destruct (List.filter is_graded prior) as [| p1 [| p2 rest]];
      cbn [take]; rewrite ?take_0; cbn.
    + split; [discriminate | intros (? & ? & ? & [=] & _)].
    + split; [discriminate | intros (? & ? & ? & [=] & _)].
    + unfold is_lose. rewrite andb_true_r. split.
      * intros [H1 H2]%andb_true_iff. apply String.eqb_eq in H1, H2. eauto 6.
      * intros (q1 & q2 & r & [= <- <- <-] & H1 & H2).
        apply andb_true_iff. now rewrite !String.eqb_eq.
  - intros pre p post -> Hp. unfold has_two_consecutive_losses.
    rewrite !List.filter_app. cbn [List.filter].
    replace (is_graded p) with false; [reflexivity |].
    unfold is_graded. now rewrite Hp.
Qed.

Lemma has_two_consecutive_losses_graded_only_witness :
  has_two_consecutive_losses
    [stored "12" "B" "P"; stored "11" "B" "Lose"; stored "10" "S" "Lose"] =
  has_two_consecutive_losses
    ([] ++ [stored "11" "B" "Lose"; stored "10" "S" "Lose"])%list.
Proof.
  apply (proj2 (has_two_consecutive_losses_graded_only
                  [stored "12" "B" "P"; stored "11" "B" "Lose";
                   stored "10" "S" "Lose"]) [] (stored "12" "B" "P")
               [stored "11" "B" "Lose"; stored "10" "S" "Lose"]);
    reflexivity.
Defined.

(** ** Reading the branch back from the rationale string *)

Lemma py_round_bounds (q : Q) :
  Qle (inject_Z 0) q -> Qle q (inject_Z 100) -> 0 <= py_round q <= 100.
Proof.
  intros H0 H100.
  assert (Hf0 : 0 <= Qfloor q).
  { rewrite <- (Qfloor_Z 0). now apply Qfloor_resp_le. }
  assert (Hf100 : Qfloor q <= 100).
  { rewrite <- (Qfloor_Z 100). now apply Qfloor_resp_le. }
  unfold py_round. cbv zeta.
  destruct (Z.eq_dec (Qfloor q) 100) as [Heq | Hne].
  - rewrite Heq.
    assert (Hlt : Qlt (Qminus q (inject_Z 100)) (1 # 2)).
    { apply Qle_lt_trans with (y := inject_Z 0); [| reflexivity].
      apply (Qplus_le_l _ _ (inject_Z 100)). ring_simplify. exact H100. }
    rewrite (proj1 (Qlt_alt _ _) Hlt). lia.
  - destruct (Qcompare _ _); [destruct (Z.even _) | |]; lia.
Qed.

Lemma ratio_percent (c l : Z) :
  0 <= c <= l -> 0 < l ->
  Qle (inject_Z 0) (Qmult (Qdiv (inject_Z c) (inject_Z l)) (inject_Z 100)) /\
  Qle (Qmult (Qdiv (inject_Z c) (inject_Z l)) (inject_Z 100)) (inject_Z 100) /\
  Qle (inject_Z 0)
      (Qmult (Qminus (inject_Z 1) (Qdiv (inject_Z c) (inject_Z l))) (inject_Z 100)) /\
  Qle (Qmult (Qminus (inject_Z 1) (Qdiv (inject_Z c) (inject_Z l))) (inject_Z 100))
      (inject_Z 100).
Proof.
  intros Hc Hl. destruct l as [| p | p]; try lia.
  cbv [Qle Qmult Qdiv Qminus Qplus Qopp Qinv inject_Z Qnum Qden].
  rewrite ?Pos2Z.inj_mul.
  repeat split; nia.
Qed.

(** The two percentages printed by the dominance branches lie between 0
    and 100. *)
Lemma big_ratio_percent (window : list string) :
  0 <= py_round (Qmult (big_ratio window) (inject_Z 100)) <= 100 /\
  0 <= py_round (Qmult (Qminus (inject_Z 1) (big_ratio window)) (inject_Z 100))
    <= 100.
Proof.
  unfold big_ratio. destruct window as [| x window]; [now vm_compute |].
  set (w := x :: window).
  assert (Hc : 0 <= Z.of_nat (length (List.filter (String.eqb "B") w))
               <= Z.of_nat (length w)).
  { pose proof (List.filter_length_le (String.eqb "B") w). lia. }
  assert (Hl : 0 < Z.of_nat (length w)) by (subst w; cbn [length]; lia).
  destruct (ratio_percent _ _ Hc Hl) as (H1 & H2 & H3 & H4).
  split; now apply py_round_bounds.
Qed.

Lemma dominance_labels :
  Forall (fun n =>
            base_confidence ("BIG DOMINANCE (" +:+ pretty n +:+ "%)") = 85 /\
            bias_of ("BIG DOMINANCE (" +:+ pretty n +:+ "%)") = "MOMENTUM_BIAS" /\
            base_confidence ("SMALL DOMINANCE (" +:+ pretty n +:+ "%)") = 85 /\
            bias_of ("SMALL DOMINANCE (" +:+ pretty n +:+ "%)") = "MOMENTUM_BIAS")
         (seqZ 0 101).
Proof. apply (bool_decide_unpack _). vm_compute. exact I. Qed.

Lemma catalogue_bias_labels :
  Forall (fun p =>
            bias_of (match_label "7-digit" p (flip_first p)) = "PATTERN_BIAS" /\
            bias_of (match_label "6-digit" p (flip_first p)) = "PATTERN_BIAS" /\
            bias_of (match_label "5-digit" p (flip_first p)) = "PATTERN_BIAS")
         STREAK_BREAK_PATTERNS.
Proof. apply (bool_decide_unpack _). vm_compute. exact I. Qed.

(** A hit of the table: its length is 5, 6 or 7, and the substring tests
    read its confidence and bias off the label. *)
Lemma find_match_branch (natural_order : list string) (v u : string) :
  find_match natural_order maps = Some (v, u) ->
  bias_of u = "PATTERN_BIAS" /\
  exists len : nat,
    (len <= length natural_order)%nat /\
    build_map len !! suffix_key len natural_order = Some v /\
    u = match_label (pretty len +:+ "-digit") (suffix_key len natural_order) v /\
    ((len = 7%nat /\ base_confidence u = 94) \/
     (len = 6%nat /\ base_confidence u = 90) \/
     (len = 5%nat /\ base_confidence u = 60)).
Proof.
  intros (len & m & name & Hin & Hlen & Hlook & ->)%find_match_inv.
  apply list_elem_of_fmap in Hin as (len' & [= -> -> ->] & Hlen').
  fold (suffix_key len' natural_order) in *.
  pose proof Hlook as (Hcat & Hklen & ->)%build_map_lookup.
  pose proof catalogue_labels as Hbase. rewrite Forall_forall in Hbase.
  pose proof catalogue_bias_labels as Hbias. rewrite Forall_forall in Hbias.
  specialize (Hbase _ Hcat) as (H7 & H6 & H5).
  specialize (Hbias _ Hcat) as (B7 & B6 & B5).
  pose proof catalogue_lengths as Hmax. rewrite Forall_forall in Hmax.
  specialize (Hmax _ Hcat).
  repeat (apply elem_of_cons in Hlen' as [-> | Hlen']; [try lia |]);
    [| | | now apply elem_of_nil in Hlen'].
  - split; [exact B7 |]. exists 7%nat. repeat split; auto.
  - split; [exact B6 |]. exists 6%nat. repeat split; auto.
  - split; [exact B5 |]. exists 5%nat. repeat split; auto.
Qed.

Lemma fallback_logic_branch (natural_order : list string) (streak : Streak)
    (v u : string) :
  fallback_logic natural_order streak = Ok (v, u) ->
  if (4 <=? count streak) && (count streak <? 6)
  then base_confidence u = 80 /\ bias_of u = "REVERSAL_BIAS"
  else match detect_alternating (lastn 10 natural_order) with
       | Some _ => u = "ALTERNATING" /\ base_confidence u = 82 /\
                   bias_of u = "CHOP_BIAS"
       | None =>
           let r := big_ratio (lastn 30 natural_order) in
           if Qle_bool (72 # 100) r || Qle_bool r (28 # 100)
           then base_confidence u = 85 /\ bias_of u = "MOMENTUM_BIAS"
           else u = "MOMENTUM" /\ base_confidence u = 75 /\
                bias_of u = "MOMENTUM_BIAS"
       end.
Proof.
  unfold fallback_logic.
  destruct ((4 <=? count streak) && (count streak <? 6)) eqn:Hshort.
  { intros [= _ <-].
    apply andb_true_iff in Hshort as [H4%Z.leb_le H6%Z.ltb_lt].
    assert (Hcount : count streak = 4 \/ count streak = 5) by lia.
    destruct Hcount as [-> | ->]; now vm_compute. }
  destruct (detect_alternating _) as [alt |].
  { intros [= _ <-]. now vm_compute. }
  cbv zeta.
  destruct (big_ratio_percent (lastn 30 natural_order)) as [Hbig Hsmall].
  pose proof dominance_labels as Hlabels. rewrite Forall_forall in Hlabels.
  destruct (Qle_bool (72 # 100) _); cbn [orb].
  { intros [= _ <-]. apply Hlabels, elem_of_seqZ. lia. }
  destruct (Qle_bool _ (28 # 100)).
  { intros [= _ <-]. apply Hlabels, elem_of_seqZ. lia. }
  destruct (last natural_order); [| discriminate].
  intros [= _ <-]. now vm_compute.
Qed.

(** X4. The engine recovers the branch that fired by substring tests on
    the rationale string, and the tests never misread it: a table hit of
    length 7, 6 or 5 gets base confidence 94, 90 or 60 and PATTERN_BIAS,
    the short-streak reversal 80 and REVERSAL_BIAS, the alternation 82 and
    CHOP_BIAS, a dominance 85 and momentum 75, both with MOMENTUM_BIAS. *)
Theorem rationale_read_back (natural_order : list string) (streak : Streak)
    (v u : string) :
  choose_prediction natural_order streak = Ok (v, u) ->
  match find_match natural_order maps with
  | Some _ =>
      bias_of u = "PATTERN_BIAS" /\
      exists len : nat,
        (len <= length natural_order)%nat /\
        build_map len !! suffix_key len natural_order = Some v /\
        u = match_label (pretty len +:+ "-digit")
                        (suffix_key len natural_order) v /\
        ((len = 7%nat /\ base_confidence u = 94) \/
         (len = 6%nat /\ base_confidence u = 90) \/
         (len = 5%nat /\ base_confidence u = 60))
  | None =>
      if (4 <=? count streak) && (count streak <? 6)
      then base_confidence u = 80 /\ bias_of u = "REVERSAL_BIAS"
      else match detect_alternating (lastn 10 natural_order) with
           | Some _ => u = "ALTERNATING" /\ base_confidence u = 82 /\
                       bias_of u = "CHOP_BIAS"
           | None =>
               let r := big_ratio (lastn 30 natural_order) in
               if Qle_bool (72 # 100) r || Qle_bool r (28 # 100)
               then base_confidence u = 85 /\ bias_of u = "MOMENTUM_BIAS"
               else u = "MOMENTUM" /\ base_confidence u = 75 /\
                    bias_of u = "MOMENTUM_BIAS"
           end
  end.
Proof.
  unfold choose_prediction.
  destruct (find_match natural_order maps) as [[v' u'] |] eqn:Hfind.
  - intros [= <- <-]. now apply find_match_branch.
  - apply fallback_logic_branch.
Qed.

Lemma rationale_read_back_witness :
  match find_match ["S"; "S"; "B"; "B"; "B"; "B"] maps with
  | Some _ =>
      bias_of "SHORT_STREAK_REVERSAL (4x)" = "PATTERN_BIAS" /\
      exists len : nat,
        (len <= length ["S"; "S"; "B"; "B"; "B"; "B"])%nat /\
        build_map len !! suffix_key len ["S"; "S"; "B"; "B"; "B"; "B"] = Some "S" /\
        "SHORT_STREAK_REVERSAL (4x)" =
          match_label (pretty len +:+ "-digit")
                      (suffix_key len ["S"; "S"; "B"; "B"; "B"; "B"]) "S" /\
        ((len = 7%nat /\ base_confidence "SHORT_STREAK_REVERSAL (4x)" = 94) \/
         (len = 6%nat /\ base_confidence "SHORT_STREAK_REVERSAL (4x)" = 90) \/
         (len = 5%nat /\ base_confidence "SHORT_STREAK_REVERSAL (4x)" = 60))
  | None =>
      if (4 <=? count (mkStreak (Some "B") 4)) && (count (mkStreak (Some "B") 4) <? 6)
      then base_confidence "SHORT_STREAK_REVERSAL (4x)" = 80 /\
           bias_of "SHORT_STREAK_REVERSAL (4x)" = "REVERSAL_BIAS"
      else match detect_alternating (lastn 10 ["S"; "S"; "B"; "B"; "B"; "B"]) with
           | Some _ => "SHORT_STREAK_REVERSAL (4x)" = "ALTERNATING" /\
                       base_confidence "SHORT_STREAK_REVERSAL (4x)" = 82 /\
                       bias_of "SHORT_STREAK_REVERSAL (4x)" = "CHOP_BIAS"
           | None =>
               let r := big_ratio (lastn 30 ["S"; "S"; "B"; "B"; "B"; "B"]) in
               if Qle_bool (72 # 100) r || Qle_bool r (28 # 100)
               then base_confidence "SHORT_STREAK_REVERSAL (4x)" = 85 /\
                    bias_of "SHORT_STREAK_REVERSAL (4x)" = "MOMENTUM_BIAS"
               else "SHORT_STREAK_REVERSAL (4x)" = "MOMENTUM" /\
                    base_confidence "SHORT_STREAK_REVERSAL (4x)" = 75 /\
                    bias_of "SHORT_STREAK_REVERSAL (4x)" = "MOMENTUM_BIAS"
           end
  end.
Proof.
  apply (rationale_read_back ["S"; "S"; "B"; "B"; "B"; "B"]
           (mkStreak (Some "B") 4) "S" "SHORT_STREAK_REVERSAL (4x)").
  vm_compute. reflexivity.
Defined.

(** ** Which branches the fallback ladder can reach *)

Lemma lastn_lastn {A : Type} (k m : nat) (l : list A) :
  (k <= m)%nat -> lastn k (lastn m l) = lastn k l.
Proof.
  intros Hkm. unfold lastn. rewrite length_drop, drop_drop. f_equal. lia.
Qed.

Lemma adjacent_equal_suffix (l1 l2 : list string) :
  adjacent_equal (l1 ++ l2) = false -> adjacent_equal l2 = false.
Proof.
  induction l1 as [| x l1 IH]; [trivial |].
  intros Hadj. apply IH. destruct (l1 ++ l2)%list as [| y rest] eqn:Heq.
  - reflexivity.
  - cbn [app adjacent_equal] in Hadj. rewrite Heq in Hadj.
    now apply orb_false_iff in Hadj.
Qed.

Lemma alternating_six (l : list string) :
  Forall is_category l -> length l = 6%nat -> adjacent_equal l = false ->
  join l = "BSBSBS" \/ join l = "SBSBSB".
Proof.
  intros Hcat Hlen Hadj.
  destruct l as [| a [| b [| c [| d [| e [| f [| ? ?]]]]]]]; try discriminate.
  repeat match goal with
         | H : Forall _ (_ :: _) |- _ => apply Forall_cons in H as [[-> | ->] H]
         end;
    cbn in Hadj; first [discriminate | now left | now right].
Qed.

Lemma find_match_some_of_six (natural_order : list string) (v : string) :
  (6 <= length natural_order)%nat ->
  build_map 6 !! join (lastn 6 natural_order) = Some v ->
  is_Some (find_match natural_order maps).
Proof.
  intros Hlen Hsix. rewrite find_match_from_7. cbn [find_match].
  destruct (Nat.leb_spec 6 (length natural_order)) as [_ | ?]; [| lia].
  rewrite Hsix.
  destruct (7 <=? length natural_order)%nat; [| eauto].
  destruct (build_map 7 !! _); eauto.
Qed.

(** On B/S sequences of at least 6 elements, whenever the last ten
    alternate the table has an entry for the last six. *)
Lemma alternating_hits (natural_order : list string) (alt : string) :
  Forall is_category natural_order ->
  (6 <= length natural_order)%nat ->
  detect_alternating (lastn 10 natural_order) = Some alt ->
  is_Some (find_match natural_order maps).
Proof.
  intros Hcat Hlen Halt. unfold detect_alternating in Halt.
  destruct (_ <? _)%nat; [discriminate |].
  destruct (adjacent_equal (lastn 10 natural_order)) eqn:Hadj; [discriminate |].
  assert (Hsix : adjacent_equal (lastn 6 natural_order) = false).
  { rewrite <- (lastn_lastn 6 10) by lia.
    apply (adjacent_equal_suffix
             (take (length (lastn 10 natural_order) - 6) (lastn 10 natural_order))).
    unfold lastn at 3. now rewrite take_drop. }
  assert (Hkey : join (lastn 6 natural_order) = "BSBSBS" \/
                 join (lastn 6 natural_order) = "SBSBSB").
  { apply alternating_six; [now apply Forall_drop | now apply length_lastn | exact Hsix]. }
  destruct Hkey as [Hkey | Hkey];
    (eapply find_match_some_of_six; [exact Hlen | rewrite Hkey; now vm_compute]).
Qed.

(** A streak of exactly five B/S categories, preceded by the other
    category, always has a 6-length entry. *)
Lemma streak_five_hits (recent_bs : list string) :
  Forall is_category recent_bs ->
  (6 <= length recent_bs)%nat ->
  count (count_streak (reverse recent_bs)) = 5 ->
  is_Some (find_match (reverse recent_bs) maps).
Proof.
  intros Hcat Hlen Hcount. rewrite count_streak_reverse in Hcount.
  destruct recent_bs as [| c older]; [cbn in Hlen; lia |].
  cbn [count] in Hcount.
  destruct (run_length_spec c older) as (k & Hrun & _ & Htake & Hnext).
  assert (Hk : k = 4%nat) by lia. subst k.
  destruct older as [| c1 [| c2 [| c3 [| c4 [| x rest]]]]];
    try (cbn in Hlen; lia).
  injection Htake as -> -> -> ->. cbn in Hnext.
  assert (Hx : x <> c) by congruence.
  apply (find_match_some_of_six _ (flip_first (x +:+ c +:+ c +:+ c +:+ c +:+ c))).
  { rewrite length_reverse. exact Hlen. }
  rewrite lastn_reverse. cbn [take]. rewrite take_0.
  apply Forall_cons in Hcat as [Hc Hcat].
  do 4 apply Forall_cons in Hcat as [_ Hcat].
  apply Forall_cons in Hcat as [Hxcat _].
  destruct Hc as [-> | ->], Hxcat as [-> | ->]; try congruence; now vm_compute.
Qed.

Lemma in_domain_recent_categories (recent_numbers : list Z)
    (recent_bs : list string) :
  in_domain recent_numbers recent_bs -> Forall is_category recent_bs.
Proof.
  intros [_ ->]. apply Forall_fmap, Forall_forall. intros n _.
  apply get_bs_category.
Qed.

(** X5. On the documented domain two rungs of the fallback ladder are out
    of reach: the engine never answers with the ALTERNATING rationale (nor
    with CHOP_BIAS), because a history whose last ten categories alternate
    always has a 6-length table entry, and a short-streak reversal is only
    ever produced for a streak of 4, because a streak of 5 has one too. *)
Theorem alternating_rung_unreachable
    (recent_numbers : list Z) (recent_bs : list string)
    (prior : list Prediction) (v : Verdict) :
  in_domain recent_numbers recent_bs ->
  dragonx_engine recent_numbers recent_bs prior = Ok v ->
  logic v <> "ALTERNATING" /\ bias v <> "CHOP_BIAS" /\
  logic v <> "SHORT_STREAK_REVERSAL (5x)".
Proof.
  intros Hdom Hv.
  destruct (Nat.ltb_spec (length recent_numbers) 10) as [Hlt | Hge].
  { rewrite dragonx_engine_cold in Hv by assumption.
    injection Hv as <-. now repeat split. }
  destruct (dragon_risk (count_streak (reverse recent_bs)) prior) eqn:Hrisk.
  { unfold dragonx_engine in Hv.
    destruct (Nat.ltb_spec (length recent_numbers) 10); [lia |].
    rewrite Hrisk in Hv. injection Hv as <-. now repeat split. }
  destruct (dragonx_engine_main_path _ _ prior Hdom Hge Hrisk)
    as (w & u & n & Hchoose & _ & Heq).
  rewrite Heq in Hv. injection Hv as <-. cbn [logic bias].
  pose proof (in_domain_is_category _ _ Hdom) as Hcat.
  pose proof (in_domain_recent_categories _ _ Hdom) as Hcat'.
  pose proof (in_domain_length _ _ Hdom) as Hlen.
  assert (Hlen' : (6 <= length recent_bs)%nat).
  { rewrite length_reverse in Hlen. lia. }
  unfold choose_prediction in Hchoose.
  destruct (find_match (reverse recent_bs) maps) as [[w' u'] |] eqn:Hfind.
  - injection Hchoose as <- <-.
    apply find_match_branch in Hfind as [Hbias _].
    repeat split; intros Heq'; rewrite Heq' in Hbias; discriminate.
  - pose proof (fallback_logic_branch _ _ _ _ Hchoose) as Hbranch.
    destruct ((4 <=? _) && (_ <? 6)) eqn:Hshort.
    + destruct Hbranch as [_ Hbias].
      repeat split; try (intros Heq'; rewrite Heq' in Hbias; discriminate).
      intros Hu. unfold fallback_logic in Hchoose. rewrite Hshort in Hchoose.
      injection Hchoose as _ Hlabel.
      apply andb_true_iff in Hshort as [H4%Z.leb_le H6%Z.ltb_lt].
      assert (Hcount : count (count_streak (reverse recent_bs)) = 4 \/
                       count (count_streak (reverse recent_bs)) = 5) by lia.
      destruct Hcount as [Hcount | Hcount].
      * rewrite Hcount, Hu in Hlabel. vm_compute in Hlabel. discriminate.
      * destruct (streak_five_hits recent_bs Hcat' Hlen' Hcount) as [hit Hhit].
        congruence.
    + destruct (detect_alternating _) as [alt |] eqn:Halt.
      * destruct (alternating_hits (reverse recent_bs) alt Hcat) as [hit Hhit];
          [lia | exact Halt | congruence].
      * cbv zeta in Hbranch.
        destruct (_ || _); [destruct Hbranch as [_ Hbias]
                           | destruct Hbranch as (_ & _ & Hbias)];
          repeat split; intros Heq'; rewrite Heq' in Hbias; discriminate.
Qed.

Lemma alternating_rung_unreachable_witness :
  logic {| bs := "B"; num := PInt 7; confidence := 90;
           logic := "6-digit MATCH: SBSBSB → B"; bias := "PATTERN_BIAS" |}
    <> "ALTERNATING" /\
  bias {| bs := "B"; num := PInt 7; confidence := 90;
          logic := "6-digit MATCH: SBSBSB → B"; bias := "PATTERN_BIAS" |}
    <> "CHOP_BIAS" /\
  logic {| bs := "B"; num := PInt 7; confidence := 90;
           logic := "6-digit MATCH: SBSBSB → B"; bias := "PATTERN_BIAS" |}
    <> "SHORT_STREAK_REVERSAL (5x)".
Proof.
  apply (alternating_rung_unreachable [7; 2; 7; 2; 7; 2; 7; 2; 7; 2]
           (get_bs <$> [7; 2; 7; 2; 7; 2; 7; 2; 7; 2]) []).
  - split; [solve_values | reflexivity].
  - vm_compute. reflexivity.
Defined.

(** ** Long streaks *)

(** The table lookup reads the seven most recent categories only. *)
Lemma find_match_recent7 (recent_bs recent_bs' : list string) :
  (7 <= length recent_bs)%nat -> (7 <= length recent_bs')%nat ->
  take 7 recent_bs = take 7 recent_bs' ->
  find_match (reverse recent_bs) maps = find_match (reverse recent_bs') maps.
Proof.
  intros Hlen Hlen' Htake.
  assert (Hkeys : forall len, (len <= 7)%nat ->
            join (lastn len (reverse recent_bs)) =
            join (lastn len (reverse recent_bs'))).
  { intros len Hle. rewrite !lastn_reverse.
    replace len with (min len 7) by lia.
    now rewrite <- !take_take, Htake. }
  rewrite !find_match_from_7. cbn [find_match]. rewrite !length_reverse.
  rewrite !Hkeys by lia.
  destruct (Nat.leb_spec 7 (length recent_bs)), (Nat.leb_spec 7 (length recent_bs'));
    try lia.
  destruct (Nat.leb_spec 6 (length recent_bs)), (Nat.leb_spec 6 (length recent_bs'));
    try lia.
  destruct (Nat.leb_spec 5 (length recent_bs)), (Nat.leb_spec 5 (length recent_bs'));
    try lia.
  reflexivity.
Qed.

(** X6. A streak of six or more that gets past the dragon-risk gate is
    always answered from the table, against the streak: the predicted
    category is the opposite of the streak's, the bias is PATTERN_BIAS and
    the base confidence is 94 for a streak of seven or more (entry of
    length 7) and 90 for a streak of exactly six (entry of length 6). *)
Theorem long_streak_predicted_to_break
    (recent_numbers : list Z) (recent_bs : list string)
    (prior : list Prediction) :
  in_domain recent_numbers recent_bs ->
  (10 <= length recent_numbers)%nat ->
  6 <= count (count_streak (reverse recent_bs)) ->
  dragon_risk (count_streak (reverse recent_bs)) prior = false ->
  exists v c,
    dragonx_engine recent_numbers recent_bs prior = Ok v /\
    value (count_streak (reverse recent_bs)) = Some c /\
    opposite c = Some (bs v) /\
    bias v = "PATTERN_BIAS" /\
    base_confidence (logic v) =
      if 7 <=? count (count_streak (reverse recent_bs)) then 94 else 90.
Proof.
  intros Hdom Hlen Hcount Hrisk.
  destruct (dragonx_engine_main_path _ _ prior Hdom Hlen Hrisk)
    as (w & u & n & Hchoose & _ & ->).
  pose proof (in_domain_recent_categories _ _ Hdom) as Hcat.
  pose proof (in_domain_length _ _ Hdom) as Hno.
  rewrite length_reverse in Hno.
  unfold choose_prediction in Hchoose.
  rewrite count_streak_reverse in Hcount |- *.
  destruct recent_bs as [| c older]; [cbn in Hno; lia |].
  cbn [count value] in Hcount |- *.
  destruct (run_length_spec c older) as (k & Hrun & _ & Htake & Hnext).
  rewrite Hrun in Hcount |- *.
  apply Forall_cons in Hcat as [Hc Hcat].
  destruct (Z.leb_spec 7 (1 + Z.of_nat k)) as [Hseven | Hsix].
  - assert (Htake7 : take 7 (c :: older) = take 7 (replicate 7 c)).
    { cbn [take replicate]. f_equal.
      replace 6%nat with (min 6 k) by lia.
      rewrite <- take_take, Htake, take_replicate.
      replace (min 6 k) with 6%nat by lia. reflexivity. }
    rewrite (find_match_recent7 _ (replicate 7 c)) in Hchoose;
      [| lia | rewrite length_replicate; lia | exact Htake7].
    destruct Hc as [-> | ->]; vm_compute in Hchoose;
      injection Hchoose as <- <-; eexists _, _;
      (split; [reflexivity |]); now vm_compute.
  - assert (Hk : k = 5%nat) by lia. subst k.
    destruct older as [| c1 [| c2 [| c3 [| c4 [| c5 [| x rest]]]]]];
      try (cbn in Hno; lia).
    injection Htake as -> -> -> -> ->. cbn in Hnext.
    assert (Hx : x <> c) by congruence.
    do 5 apply Forall_cons in Hcat as [_ Hcat].
    apply Forall_cons in Hcat as [Hxcat _].
    rewrite (find_match_recent7 _ [c; c; c; c; c; c; x]) in Hchoose;
      [| cbn in Hno |- *; lia | cbn; lia | reflexivity].
    destruct Hc as [-> | ->], Hxcat as [-> | ->]; try congruence;
      vm_compute in Hchoose; injection Hchoose as <- <-; eexists _, _;
      (split; [reflexivity |]); now vm_compute.
Qed.

Lemma long_streak_predicted_to_break_witness :
  exists v c,
    dragonx_engine [7; 8; 9; 7; 8; 9; 7; 8; 9; 7]
      (get_bs <$> [7; 8; 9; 7; 8; 9; 7; 8; 9; 7]) [] = Ok v /\
    value (count_streak (reverse (get_bs <$> [7; 8; 9; 7; 8; 9; 7; 8; 9; 7])))
      = Some c /\
    opposite c = Some (bs v) /\
    bias v = "PATTERN_BIAS" /\
    base_confidence (logic v) =
      if 7 <=? count (count_streak
                        (reverse (get_bs <$> [7; 8; 9; 7; 8; 9; 7; 8; 9; 7])))
      then 94 else 90.
Proof.
  apply (long_streak_predicted_to_break [7; 8; 9; 7; 8; 9; 7; 8; 9; 7]
           (get_bs <$> [7; 8; 9; 7; 8; 9; 7; 8; 9; 7]) []).
  - split; [solve_values | reflexivity].
  - simpl. lia.
  - vm_compute. discriminate.
  - reflexivity.
Defined.

(** ** Number selection: ranking *)

(** The two intermediate lists of [select_number]. *)
Definition candidate_scores (prediction : string) (recent_numbers counts : list Z)
    : list (Z * Q) :=
  let last_10_nums := lastn 10 recent_numbers in
  let even_bias := (5 <? length (List.filter is_even last_10_nums))%nat in
  (fun n => (n, score counts last_10_nums even_bias n)) <$> pool_of prediction.

Definition kept_candidates (prior : list Prediction) (weighted : list (Z * Q))
    : list (Z * Q) :=
  match prior with
  | p :: _ =>
      if is_lose p
      then List.filter (fun ns => negb (pyval_eqb (PInt (fst ns)) (p_num p))) weighted
      else weighted
  | [] => weighted
  end.

Lemma select_number_eq (prediction : string) (recent_numbers : list Z)
    (prior : list Prediction) :
  select_number prediction recent_numbers prior =
  let* counts := tally (replicate 10 0) (lastn 60 recent_numbers) in
  match sort_desc (kept_candidates prior
                     (candidate_scores prediction recent_numbers counts)) with
  | (n, _) :: _ => Ok n
  | [] => match pool_of prediction with n :: _ => Ok n | [] => Err IndexError end
  end.
Proof. reflexivity. Qed.

(** A candidate of the pool that is not the number of a lost most recent
    prediction is kept. *)
Lemma kept_candidates_elem_of (prior : list Prediction)
    (prediction : string) (recent_numbers counts : list Z) (m : Z) (q : Q) :
  (m, q) ∈ kept_candidates prior (candidate_scores prediction recent_numbers counts)
  <->
  (m, q) ∈ candidate_scores prediction recent_numbers counts /\
  (forall p rest, prior = p :: rest -> is_lose p = true -> p_num p <> PInt m).
Proof.
  unfold kept_candidates. destruct prior as [| p rest].
  { split; [intros H; split; [exact H | discriminate] | tauto]. }
  destruct (is_lose p) eqn:Hlose.
  - rewrite list_elem_of_In, List.filter_In, <- list_elem_of_In. cbn [fst].
    rewrite negb_true_iff, <- not_true_iff_false, pyval_eqb_eq.
    split; intros [Hin Hne]; (split; [exact Hin |]).
    + intros ? ? [= <- <-] _. congruence.
    + intros Heq. now apply (Hne p rest).
  - split; [intros H; split; [exact H |] | tauto].
    intros ? ? [= <- <-]. congruence.
Qed.

Lemma kept_candidates_nonempty (prior : list Prediction)
    (prediction : string) (recent_numbers counts : list Z) :
  kept_candidates prior (candidate_scores prediction recent_numbers counts) <> [].
Proof.
  assert (Htwo : exists a b qa qb, a <> b /\
            (a, qa) ∈ candidate_scores prediction recent_numbers counts /\
            (b, qb) ∈ candidate_scores prediction recent_numbers counts).
  { unfold candidate_scores, pool_of. cbv zeta.
    destruct (String.eqb prediction "B"); rewrite !fmap_cons.
    - exists 5, 6. eexists _, _. split; [lia |]. split.
      + apply elem_of_cons. now left.
      + apply elem_of_cons. right. apply elem_of_cons. now left.
    - exists 0, 1. eexists _, _. split; [lia |]. split.
      + apply elem_of_cons. now left.
      + apply elem_of_cons. right. apply elem_of_cons. now left. }
  destruct Htwo as (a & b & qa & qb & Hab & Ha & Hb).
  intros Hnil.
  assert (Hnone : forall m q,
            ~ (m, q) ∈ kept_candidates prior
                         (candidate_scores prediction recent_numbers counts)).
  { intros m q. rewrite Hnil. apply not_elem_of_nil. }
  destruct prior as [| p rest].
  { apply (Hnone a qa). apply kept_candidates_elem_of.
    split; [exact Ha | discriminate]. }
  destruct (pyval_eqb (p_num p) (PInt a)) eqn:Hpa;
    [apply pyval_eqb_eq in Hpa
    | apply not_true_iff_false in Hpa; rewrite pyval_eqb_eq in Hpa].
  - apply (Hnone b qb). apply kept_candidates_elem_of. split; [exact Hb |].
    intros ? ? [= <- <-] _. congruence.
  - apply (Hnone a qa). apply kept_candidates_elem_of. split; [exact Ha |].
    intros ? ? [= <- <-] _. exact Hpa.
Qed.

Lemma sort_desc_nil (l : list (Z * Q)) : sort_desc l = [] -> l = [].
Proof.
  intros Hnil. apply elem_of_nil_inv. intros x Hx.
  apply sort_desc_elem_of in Hx. rewrite Hnil in Hx. now apply elem_of_nil in Hx.
Qed.

(** The head of the sorted list is the first entry of maximal score. *)
Lemma sort_desc_head (l : list (Z * Q)) (h : Z * Q) (rest : list (Z * Q)) :
  sort_desc l = h :: rest ->
  exists l1 l2,
    l = (l1 ++ h :: l2)%list /\
    (forall y, y ∈ l1 -> Qlt (snd y) (snd h)) /\
    (forall y, y ∈ l2 -> Qle (snd y) (snd h)).
Proof.
  revert h rest. induction l as [| x l IH]; intros h rest; [discriminate |].
  cbn [sort_desc foldr]. fold (sort_desc l).
  destruct (sort_desc l) as [| h' rest'] eqn:Hsorted.
  - apply sort_desc_nil in Hsorted as ->. intros [= <- <-].
    exists [], []. split; [reflexivity |].
    split; intros y Hy; now apply elem_of_nil in Hy.
  - destruct (IH h' rest' eq_refl) as (l1 & l2 & -> & Hl1 & Hl2).
    cbn [insert_desc]. unfold Qgt_bool.
    destruct (Qle_bool (snd h') (snd x)) eqn:Hle; cbn [negb].
    + apply Qle_bool_iff in Hle. intros [= <- <-].
      exists [], (l1 ++ h' :: l2)%list. split; [reflexivity |].
      split; [intros y Hy; now apply elem_of_nil in Hy |].
      intros y [Hy | [-> | Hy]%elem_of_cons]%elem_of_app.
      * apply Qlt_le_weak, Qlt_le_trans with (y := snd h'); auto.
      * exact Hle.
      * apply Qle_trans with (y := snd h'); auto.
    + intros [= <- <-].
      assert (Hlt : Qlt (snd x) (snd h')).
      { apply Qnot_le_lt. intros Hle'. apply Qle_bool_iff in Hle'. congruence. }
      exists (x :: l1), l2. split; [reflexivity |]. split; [| exact Hl2].
      intros y [-> | Hy]%elem_of_cons; auto.
Qed.

Lemma StronglySorted_list_filter {A : Type} (R : A -> A -> Prop)
    (f : A -> bool) (l : list A) :
  StronglySorted R l -> StronglySorted R (List.filter f l).
Proof.
  induction l as [| x l IH]; [trivial |].
  intros [Hx Hl]%StronglySorted_cons. cbn [List.filter].
  destruct (f x); [| auto].
  apply StronglySorted_cons. split; [| auto].
  apply Forall_forall. intros y Hy.
  apply list_elem_of_In, List.filter_In in Hy as [Hy _].
  rewrite Forall_forall in Hx. now apply Hx, list_elem_of_In.
Qed.

Lemma kept_candidates_ascending (prior : list Prediction)
    (prediction : string) (recent_numbers counts : list Z) :
  StronglySorted (fun a b => fst a < fst b)
    (kept_candidates prior (candidate_scores prediction recent_numbers counts)).
Proof.
  assert (Hall : StronglySorted (fun a b : Z * Q => fst a < fst b)
                   (candidate_scores prediction recent_numbers counts)).
  { unfold candidate_scores, pool_of. cbv zeta.
    destruct (String.eqb prediction "B"); rewrite !fmap_cons;
      repeat (apply StronglySorted_cons; split;
              [repeat (apply List.Forall_cons; [cbn; lia |]);
               apply List.Forall_nil |]);
      constructor. }
  unfold kept_candidates. destruct prior as [| p rest]; [exact Hall |].
  destruct (is_lose p); [| exact Hall].
  now apply StronglySorted_list_filter.
Qed.

Lemma select_number_ranked (prediction : string) (recent_numbers : list Z)
    (prior : list Prediction) (n : Z) :
  select_number prediction recent_numbers prior = Ok n ->
  exists counts q l1 l2,
    tally (replicate 10 0) (lastn 60 recent_numbers) = Ok counts /\
    kept_candidates prior (candidate_scores prediction recent_numbers counts)
      = (l1 ++ (n, q) :: l2)%list /\
    (forall y, y ∈ l1 -> Qlt (snd y) q) /\
    (forall y, y ∈ l2 -> Qle (snd y) q).
Proof.
  rewrite select_number_eq.
  destruct (tally _ _) as [counts | e]; cbn [res_bind]; [| discriminate].
  destruct (sort_desc _) as [| [m q] rest] eqn:Hsorted.
  { apply sort_desc_nil in Hsorted. now apply kept_candidates_nonempty in Hsorted. }
  intros [= ->].
  destruct (sort_desc_head _ _ _ Hsorted) as (l1 & l2 & Hkept & Hl1 & Hl2).
  exists counts, q, l1, l2. auto.
Qed.

(** X7. The number the engine suggests has the highest score among the
    candidates of its pool, the number of a lost most recent prediction
    left aside; among candidates of equal score the smallest number wins
    (every smaller candidate scores strictly less). *)
Theorem select_number_highest_score (prediction : string)
    (recent_numbers : list Z) (prior : list Prediction) (n : Z) :
  select_number prediction recent_numbers prior = Ok n ->
  exists counts,
    tally (replicate 10 0) (lastn 60 recent_numbers) = Ok counts /\
    let sc := score counts (lastn 10 recent_numbers)
                (5 <? length (List.filter is_even (lastn 10 recent_numbers)))%nat in
    n ∈ pool_of prediction /\
    forall m,
      m ∈ pool_of prediction ->
      (forall p rest, prior = p :: rest -> is_lose p = true -> p_num p <> PInt m) ->
      Qle (sc m) (sc n) /\ (m < n -> Qlt (sc m) (sc n)).
Proof.
  intros Hsel.
  pose proof (select_number_pool _ _ _ _ Hsel) as Hpool.
  destruct (select_number_ranked _ _ _ _ Hsel)
    as (counts & q & l1 & l2 & Htally & Hkept & Hl1 & Hl2).
  exists counts. split; [exact Htally |]. cbv zeta. split; [exact Hpool |].
  pose proof (kept_candidates_ascending prior prediction recent_numbers counts)
    as Hasc.
  assert (Hn : (n, q) ∈ kept_candidates prior
                          (candidate_scores prediction recent_numbers counts)).
  { rewrite Hkept. apply elem_of_app. right. apply elem_of_cons. now left. }
  apply kept_candidates_elem_of in Hn as [Hn _].
  apply list_elem_of_fmap in Hn as (n' & [= <- ->] & _).
  intros m Hm Hfree.
  assert (Hin : (m, score counts (lastn 10 recent_numbers)
                       (5 <? length (List.filter is_even (lastn 10 recent_numbers)))%nat
                       m)
                ∈ kept_candidates prior
                    (candidate_scores prediction recent_numbers counts)).
  { apply kept_candidates_elem_of. split; [| exact Hfree].
    unfold candidate_scores. cbv zeta.
    apply (list_elem_of_fmap_2 (fun n => (n, score _ _ _ n))). exact Hm. }
  rewrite Hkept in Hin, Hasc.
  apply elem_of_app in Hin as [Hin | [Hin | Hin]%elem_of_cons].
  - specialize (Hl1 _ Hin). cbn [snd] in Hl1. split; [now apply Qlt_le_weak | auto].
  - injection Hin as -> _. split; [apply Qle_refl | lia].
  - specialize (Hl2 _ Hin). cbn [snd] in Hl2. split; [exact Hl2 |].
    apply StronglySorted_app_1_r, StronglySorted_cons in Hasc as [Hafter _].
    rewrite Forall_forall in Hafter. specialize (Hafter _ Hin).
    cbn [fst] in Hafter. lia.
Qed.

Lemma select_number_highest_score_witness :
  exists counts,
    tally (replicate 10 0) (lastn 60 [7; 2; 7; 2; 7; 2; 7; 2; 7; 2]) = Ok counts /\
    let sc := score counts (lastn 10 [7; 2; 7; 2; 7; 2; 7; 2; 7; 2])
                (Nat.ltb 5 (length (List.filter is_even
                                      (lastn 10 [7; 2; 7; 2; 7; 2; 7; 2; 7; 2])))) in
    7 ∈ pool_of "B" /\
    forall m,
      m ∈ pool_of "B" ->
      (forall p rest, [] = p :: rest -> is_lose p = true -> p_num p <> PInt m) ->
      Qle (sc m) (sc 7) /\ (m < 7 -> Qlt (sc m) (sc 7)).
Proof.
  apply (select_number_highest_score "B" [7; 2; 7; 2; 7; 2; 7; 2; 7; 2] [] 7).
  vm_compute. reflexivity.
Defined.

(** X8. The engine never suggests again the number of the most recent
    prediction when that prediction lost: on the documented domain, past
    the cold-start gate, it returns either the SKIP verdict or a number
    different from the lost one.  The pool keeps at least four candidates,
    so the exclusion never empties it. *)
Theorem lost_number_not_repeated
    (recent_numbers : list Z) (recent_bs : list string)
    (p : Prediction) (rest : list Prediction) :
  in_domain recent_numbers recent_bs ->
  (10 <= length recent_numbers)%nat ->
  p_result p = "Lose" ->
  exists v,
    dragonx_engine recent_numbers recent_bs (p :: rest) = Ok v /\
    (v = skip_verdict \/ exists n, num v = PInt n /\ p_num p <> PInt n).
Proof.
  intros Hdom Hlen Hlose.
  destruct (dragon_risk (count_streak (reverse recent_bs)) (p :: rest)) eqn:Hrisk.
  { exists skip_verdict. split; [| now left]. unfold dragonx_engine.
    destruct (Nat.ltb_spec (length recent_numbers) 10); [lia |].
    now rewrite Hrisk. }
  destruct (dragonx_engine_main_path _ _ (p :: rest) Hdom Hlen Hrisk)
    as (w & u & n & _ & Hsel & ->).
  eexists. split; [reflexivity |]. right. exists n. split; [reflexivity |].
  destruct (select_number_ranked _ _ _ _ Hsel)
    as (counts & q & l1 & l2 & _ & Hkept & _).
  assert (Hn : (n, q) ∈ kept_candidates (p :: rest)
                          (candidate_scores w recent_numbers counts)).
  { rewrite Hkept. apply elem_of_app. right. apply elem_of_cons. now left. }
  apply kept_candidates_elem_of in Hn as [_ Hfree].
  apply (Hfree p rest eq_refl). unfold is_lose. now rewrite Hlose.
Qed.

Lemma lost_number_not_repeated_witness :
  exists v,
    dragonx_engine [7; 2; 7; 2; 7; 2; 7; 2; 7; 2]
      (get_bs <$> [7; 2; 7; 2; 7; 2; 7; 2; 7; 2])
      (mkPrediction "11" "B" (PInt 7) 90 "6-digit MATCH: SBSBSB → B"
         "PATTERN_BIAS" "Lose" :: []) = Ok v /\
    (v = skip_verdict \/
     exists n, num v = PInt n /\
       p_num (mkPrediction "11" "B" (PInt 7) 90 "6-digit MATCH: SBSBSB → B"
                "PATTERN_BIAS" "Lose") <> PInt n).
Proof.
  apply (lost_number_not_repeated [7; 2; 7; 2; 7; 2; 7; 2; 7; 2]
           (get_bs <$> [7; 2; 7; 2; 7; 2; 7; 2; 7; 2])).
  - split; [solve_values | reflexivity].
  - simpl. lia.
  - reflexivity.
Defined.

Lemma lastn_app_ge {A : Type} (k : nat) (l1 l2 : list A) :
  (k <= length l2)%nat -> lastn k (l1 ++ l2) = lastn k l2.
Proof.
  intros Hk. unfold lastn. rewrite length_app.
  replace (length l1 + length l2 - k)%nat
    with (length l1 + (length l2 - k))%nat by lia.
  apply drop_app_add.
Qed.

(** X9. The frequency counts, the last-ten window and the parity bias are
    taken from the end of the newest-first list of values, that is from
    the oldest stored observations: once 60 observations are stored, the
    suggested number no longer depends on any newer observation. *)
Theorem select_number_reads_oldest (prediction : string)
    (newer recent_numbers : list Z) (prior : list Prediction) :
  (60 <= length recent_numbers)%nat ->
  select_number prediction (newer ++ recent_numbers) prior =
  select_number prediction recent_numbers prior.
Proof.
  intros Hlen. unfold select_number.
  now rewrite !lastn_app_ge by lia.
Qed.

Lemma select_number_reads_oldest_witness :
  select_number "B" ([9; 9; 9] ++ replicate 60 2) [] =
  select_number "B" (replicate 60 2) [].
Proof.
  apply (select_number_reads_oldest "B" [9; 9; 9] (replicate 60 2) []).
  rewrite length_replicate. lia.
Defined.

(** ** Frequency counts and the failures of the engine *)

Lemma py_index_10 (n : Z) :
  py_index 10 n =
  if (-10 <=? n) && (n <=? 9) then Ok (Z.to_nat (n mod 10)) else Err IndexError.
Proof.
  unfold py_index.
  repeat match goal with
         | |- context [(?a <=? ?b)] => destruct (Z.leb_spec a b)
         | |- context [(?a <? ?b)] => destruct (Z.ltb_spec a b)
         end; cbn [andb]; try lia; try reflexivity.
  - now rewrite Z.mod_small by lia.
  - do 2 f_equal. apply (Zmod_unique n 10 (-1)); lia.
Qed.

Lemma tally_spec (ns counts : list Z) :
  length counts = 10%nat ->
  match tally counts ns with
  | Ok counts' =>
      Forall (fun n => -10 <= n <= 9) ns /\
      length counts' = 10%nat /\
      forall d, 0 <= d <= 9 ->
        counts' !!! Z.to_nat d =
        counts !!! Z.to_nat d +
        Z.of_nat (length (List.filter (fun n => n mod 10 =? d) ns))
  | Err e => e = IndexError /\ ~ Forall (fun n => -10 <= n <= 9) ns
  end.
Proof.
  revert counts. induction ns as [| n ns IH]; intros counts Hlen; cbn [tally].
  - split; [constructor |]. split; [exact Hlen |]. intros d _. cbn. lia.
  - rewrite Hlen. change (Z.of_nat 10) with 10. rewrite py_index_10.
    destruct ((-10 <=? n) && (n <=? 9)) eqn:Hrange; cbn [res_bind].
    + apply andb_true_iff in Hrange as [Hlo%Z.leb_le Hhi%Z.leb_le].
      pose proof (Z.mod_pos_bound n 10 ltac:(lia)) as Hmod.
      specialize (IH (alter Z.succ (Z.to_nat (n mod 10)) counts)).
      rewrite length_alter in IH. specialize (IH Hlen).
      destruct (tally _ ns) as [counts' | e].
      * destruct IH as (Hns & Hlen' & Hcounts).
        split; [constructor; [lia | exact Hns] |]. split; [exact Hlen' |].
        intros d Hd. rewrite (Hcounts d Hd). cbn [List.filter].
        rewrite list_lookup_total_alter.
        destruct (Z.eqb_spec (n mod 10) d) as [Heq | Hne].
        -- rewrite decide_True by (subst d; split; [reflexivity | lia]).
           subst d. cbn [length]. lia.
        -- rewrite decide_False by (intros [Heq _]; lia). lia.
      * destruct IH as [-> Hns]. split; [reflexivity |].
        intros Hall. apply Hns. now inversion Hall.
    + split; [reflexivity |]. intros Hall. inversion Hall as [| ? ? Hn _]; subst.
      apply andb_false_iff in Hrange as [H%Z.leb_gt | H%Z.leb_gt]; lia.
Qed.

(** X10. The frequency table counts, under each digit [d], the values
    congruent to [d] modulo 10: the values 0..9 themselves and, through
    Python's negative indexing, the values -10..-1.  A value outside
    [-10, 9] raises IndexError. *)
Theorem tally_counts_digits (ns : list Z) :
  (Forall (fun n => -10 <= n <= 9) ns ->
   exists counts,
     tally (replicate 10 0) ns = Ok counts /\
     length counts = 10%nat /\
     forall d, 0 <= d <= 9 ->
       counts !!! Z.to_nat d =
       Z.of_nat (length (List.filter (fun n => n mod 10 =? d) ns))) /\
  (~ Forall (fun n => -10 <= n <= 9) ns ->
   tally (replicate 10 0) ns = Err IndexError).
Proof.
  pose proof (tally_spec ns (replicate 10 0) eq_refl) as Hspec.
  destruct (tally (replicate 10 0) ns) as [counts | e].
  - destruct Hspec as (Hns & Hlen & Hcounts). split; [| tauto].
    intros _. exists counts. split; [reflexivity |]. split; [exact Hlen |].
    intros d Hd. rewrite (Hcounts d Hd).
    assert (Hzero : replicate 10 0 !!! Z.to_nat d = 0).
    { apply lookup_total_replicate_2. lia. }
    rewrite Hzero. lia.
  - destruct Hspec as [-> Hns]. split; [tauto | reflexivity].
Qed.

Lemma tally_counts_digits_witness :
  exists counts,
    tally (replicate 10 0) [3; -7; 3; 9; -1] = Ok counts /\
    length counts = 10%nat /\
    forall d, 0 <= d <= 9 ->
      counts !!! Z.to_nat d =
      Z.of_nat (length (List.filter (fun n => n mod 10 =? d) [3; -7; 3; 9; -1])).
Proof.
  apply (proj1 (tally_counts_digits [3; -7; 3; 9; -1])).
  repeat first [ apply List.Forall_nil | apply List.Forall_cons; [cbn beta; lia |] ].
Defined.

Lemma select_number_failure (prediction : string) (recent_numbers : list Z)
    (prior : list Prediction) (e : exn) :
  select_number prediction recent_numbers prior = Err e ->
  e = IndexError /\
  ~ Forall (fun n => -10 <= n <= 9) (lastn 60 recent_numbers).
Proof.
  rewrite select_number_eq.
  pose proof (tally_spec (lastn 60 recent_numbers) (replicate 10 0) eq_refl)
    as Hspec.
  destruct (tally _ _) as [counts | e']; cbn [res_bind].
  - destruct (sort_desc _) as [| [m q] rest]; [| discriminate].
    unfold pool_of. destruct (String.eqb prediction "B"); discriminate.
  - intros [= <-]. exact Hspec.
Qed.

Lemma dragonx_engine_raises_index_error
    (recent_numbers : list Z) (recent_bs : list string)
    (prior : list Prediction) (e : exn) :
  dragonx_engine recent_numbers recent_bs prior = Err e -> e = IndexError.
Proof.
  unfold dragonx_engine.
  destruct (_ <? _)%nat; [discriminate |].
  destruct (dragon_risk _ _); [discriminate |].
  destruct (choose_prediction _ _) as [[w u] | e'] eqn:Hchoose; cbn [res_bind].
  - destruct (select_number w recent_numbers prior) as [n | e''] eqn:Hsel;
      cbn [res_bind]; [discriminate |].
    intros [= <-]. now apply select_number_failure in Hsel.
  - intros [= <-]. unfold choose_prediction, fallback_logic in Hchoose.
    repeat match type of Hchoose with
           | match ?c with _ => _ end = _ => destruct c; try discriminate
           | (if ?c then _ else _) = _ => destruct c; try discriminate
           end.
    now injection Hchoose.
Qed.

(** A value small enough for the float division of the cold-start mean.
    The embedding computes that mean exactly; Python's [sum / len] raises
    OverflowError when the quotient exceeds the largest float.  With fewer
    than ten values of magnitude at most 10^300 it never does. *)
Definition float_safe (n : Z) : Prop := Z.abs n <= 10 ^ 300.

Ltac solve_float_safe :=
  repeat first [ apply List.Forall_nil
               | apply List.Forall_cons;
                 [unfold float_safe; apply Z.leb_le; vm_compute; reflexivity |] ].

(** X11. On values the float division can take (magnitude at most 10^300)
    the only exception the engine raises is IndexError, and only past its
    two gates: either it was handed no category at all, and the momentum
    rung reads the last element of an empty list, or one of the values it
    tallies lies outside [-10, 9]. *)
Theorem dragonx_engine_failure
    (recent_numbers : list Z) (recent_bs : list string)
    (prior : list Prediction) (e : exn) :
  Forall float_safe recent_numbers ->
  dragonx_engine recent_numbers recent_bs prior = Err e ->
  e = IndexError /\
  (10 <= length recent_numbers)%nat /\
  dragon_risk (count_streak (reverse recent_bs)) prior = false /\
  (recent_bs = [] \/
   ~ Forall (fun n => -10 <= n <= 9) (lastn 60 recent_numbers)).
Proof.
  intros _ Herr.
  destruct (Nat.ltb_spec (length recent_numbers) 10) as [Hlt | Hge].
  { rewrite dragonx_engine_cold in Herr by assumption. discriminate. }
  destruct (dragon_risk (count_streak (reverse recent_bs)) prior) eqn:Hrisk.
  { unfold dragonx_engine in Herr.
    destruct (Nat.ltb_spec (length recent_numbers) 10); [lia |].
    rewrite Hrisk in Herr. discriminate. }
  rewrite dragonx_engine_past_gates in Herr by assumption.
  destruct recent_bs as [| b rest].
  { vm_compute in Herr. injection Herr as <-. auto. }
  destruct (choose_prediction_total (reverse (b :: rest))
              (count_streak (reverse (b :: rest)))) as (w & u & Hchoose).
  { intros Hnil. apply (f_equal length) in Hnil.
    rewrite length_reverse in Hnil. discriminate. }
  rewrite Hchoose in Herr. cbn [res_bind] in Herr.
  destruct (select_number w recent_numbers prior) as [n | e'] eqn:Hsel;
    [discriminate |].
  cbn [res_bind] in Herr. injection Herr as <-.
  apply select_number_failure in Hsel as [-> Hbad]. auto.
Qed.

Lemma dragonx_engine_failure_witness :
  IndexError = IndexError /\
  (10 <= length [7; 2; 7; 2; 7; 2; 7; 2; 7; 12])%nat /\
  dragon_risk (count_streak (reverse (get_bs <$> [7; 2; 7; 2; 7; 2; 7; 2; 7; 12])))
    [] = false /\
  (get_bs <$> [7; 2; 7; 2; 7; 2; 7; 2; 7; 12] = [] \/
   ~ Forall (fun n => -10 <= n <= 9) (lastn 60 [7; 2; 7; 2; 7; 2; 7; 2; 7; 12])).
Proof.
  apply (dragonx_engine_failure [7; 2; 7; 2; 7; 2; 7; 2; 7; 12]
           (get_bs <$> [7; 2; 7; 2; 7; 2; 7; 2; 7; 12]) [] IndexError).
  - solve_float_safe.
  - vm_compute. reflexivity.
Defined.

(** ** Invariants of the polling job *)

(** The logs respect the capacities of their deques. *)
Definition bounded (st : State) : Prop :=
  (length (trends st) <= 1000)%nat /\ (length (predictions st) <= 200)%nat.

(** Every stored observation is in the documented domain. *)
Definition valid_history (st : State) : Prop :=
  Forall (fun t => 0 <= t_num t <= 9 /\ t_bs t = get_bs (t_num t)) (trends st).

Lemma grade_last_periods (period bs_now : string) (number : Z)
    (l : list Prediction) :
  p_period <$> grade_last period bs_now number l = p_period <$> l.
Proof.
  destruct l as [| p l]; [reflexivity |]. cbn [grade_last].
  now destruct (String.eqb (p_period p) period).
Qed.

Lemma grade_last_length (period bs_now : string) (number : Z)
    (l : list Prediction) :
  length (grade_last period bs_now number l) = length l.
Proof.
  destruct l as [| p l]; [reflexivity |]. cbn [grade_last].
  now destruct (String.eqb (p_period p) period).
Qed.

Lemma lastn_all {A : Type} (k : nat) (l : list A) :
  (length l <= k)%nat -> lastn k l = l.
Proof.
  intros Hk. unfold lastn. now replace (length l - k)%nat with 0%nat by lia.
Qed.

Lemma length_lastn_le {A : Type} (k : nat) (l : list A) :
  (length (lastn k l) <= k)%nat.
Proof. unfold lastn. rewrite length_drop. lia. Qed.

Lemma length_appendleft {A : Type} (maxlen : nat) (x : A) (d : list A) :
  (length (appendleft maxlen x d) <= maxlen)%nat.
Proof. unfold appendleft. rewrite length_take. lia. Qed.

Section JobInvariants.

Variable py_int : string -> option Z.
Variable py_str : Z -> string.

Local Abbreviation job := (prediction_job py_int py_str).
Local Abbreviation cycles := (run_cycles py_int py_str).
Local Abbreviation body := (job_body py_int py_str).

(** The four ways a cycle that received an observation can end. *)
Lemma job_body_cases (st : State) (period : string) (number : Z)
    (items : list entry) :
  let trends1 :=
    appendleft 1000 (mkTrend period number (get_bs number)) (trends st) in
  let preds1 := grade_last period (get_bs number) number (predictions st) in
  let resp := Json (AList (Content period number :: items)) in
  (py_int period = None /\
   body st resp = (mkState trends1 preds1, Some ValueError)) \/
  (exists k,
     py_int period = Some k /\
     existsb (fun p => String.eqb (p_period p) (py_str (k + 1))) preds1 = true /\
     body st resp = (mkState trends1 preds1, None)) \/
  (exists k e,
     py_int period = Some k /\
     existsb (fun p => String.eqb (p_period p) (py_str (k + 1))) preds1 = false /\
     dragonx_engine (t_num <$> trends1) (t_bs <$> trends1) preds1 = Err e /\
     body st resp = (mkState trends1 preds1, Some e)) \/
  (exists k pred,
     py_int period = Some k /\
     existsb (fun p => String.eqb (p_period p) (py_str (k + 1))) preds1 = false /\
     dragonx_engine (t_num <$> trends1) (t_bs <$> trends1) preds1 = Ok pred /\
     body st resp =
       (mkState trends1
          (appendleft 200
             {| p_period := py_str (k + 1); p_bs := bs pred; p_num := num pred;
                p_confidence := confidence pred; p_logic := logic pred;
                p_bias := bias pred; p_result := "P" |} preds1), None)).
Proof.
  cbv zeta. unfold job_body.
  destruct (py_int period) as [k |]; [| now left].
  right. destruct (existsb _ _) eqn:Hexists; [left; eauto |].
  right. destruct (dragonx_engine _ _ _) as [pred | e] eqn:Hengine.
  - right. exists k, pred. auto.
  - left. exists k, e. auto.
Qed.

Lemma job_failure_state (st : State) (resp : response) :
  feed_failure resp = true -> job st resp = st.
Proof.
  intros Hfail. unfold prediction_job.
  now rewrite (job_feed_failure py_int py_str st resp Hfail).
Qed.

(** X12. The job never stores two predictions for one period: if the
    periods of the prediction log are pairwise distinct, they still are
    after any number of cycles, whatever the feed delivers. *)
Theorem no_two_predictions_for_a_period (st : State) (feed : list response) :
  NoDup (p_period <$> predictions st) ->
  NoDup (p_period <$> predictions (cycles st feed)).
Proof.
  revert st. induction feed as [| resp feed IH]; intros st Hst; [exact Hst |].
  cbn [run_cycles foldl]. apply IH.
  destruct (feed_failure resp) eqn:Hfail.
  { now rewrite job_failure_state. }
  destruct resp as [e | [| [| [| period number] items]]]; try discriminate.
  unfold prediction_job.
  destruct (job_body_cases st period number items)
    as [[_ ->] | [(k & _ & _ & ->) | [(k & e & _ & _ & _ & ->)
       | (k & pred & _ & Hnew & _ & ->)]]];
    cbn [fst predictions]; rewrite ?grade_last_periods; try exact Hst.
  unfold appendleft. rewrite fmap_take.
  eapply sublist_NoDup; [| apply sublist_take].
  rewrite fmap_cons. cbn [p_period]. apply NoDup_cons.
  rewrite grade_last_periods. split; [| exact Hst].
  intros Hin. rewrite <- (grade_last_periods period (get_bs number) number) in Hin.
  apply list_elem_of_fmap in Hin as (p & Hp & Hin).
  assert (Htrue : existsb (fun p => String.eqb (p_period p) (py_str (k + 1)))
                    (grade_last period (get_bs number) number (predictions st))
                  = true).
  { apply List.existsb_exists. exists p. split; [now apply list_elem_of_In |].
    rewrite <- Hp. apply String.eqb_refl. }
  congruence.
Qed.

(** A cycle leaves a prediction that stands behind a newer one as it is,
    and never moves it forward. *)
Lemma job_keeps_behind (st : State) (resp : response)
    (pre : list Prediction) (p : Prediction) (older : list Prediction) :
  predictions st = take 200 (pre ++ p :: older)%list ->
  pre <> [] ->
  exists pre',
    (length pre <= length pre' <= S (length pre))%nat /\
    predictions (job st resp) = take 200 (pre' ++ p :: older)%list.
Proof.
  intros Hst Hpre.
  destruct (feed_failure resp) eqn:Hfail.
  { exists pre. split; [lia |]. now rewrite job_failure_state. }
  destruct resp as [e | [| [| [| period number] items]]]; try discriminate.
  destruct pre as [| q pre]; [congruence |].
  assert (Hgraded : exists q',
            grade_last period (get_bs number) number (predictions st)
              = take 200 ((q' :: pre) ++ p :: older)%list).
  { rewrite Hst, grade_last_take. cbn [app grade_last].
    destruct (String.eqb (p_period q) period); eauto. }
  destruct Hgraded as (q' & Hpreds1).
  destruct (job_predictions py_int py_str st period number items)
    as [-> | (new & _ & ->)].
  - exists (q' :: pre). split; [cbn [length]; lia | exact Hpreds1].
  - exists (new :: q' :: pre). split; [cbn [length]; lia |].
    unfold appendleft. rewrite Hpreds1. apply take_cons_take.
Qed.

(** X13. Only the most recent prediction is ever graded.  Once a newer
    prediction stands in front of it, a stored prediction is frozen: no
    later cycle changes any of its fields, whatever the feed delivers, so
    a prediction whose observation was missed stays pending for good.  It
    only moves back, by at most one place per cycle, until the capacity of
    200 drops it. *)
Theorem older_predictions_frozen (st : State) (feed : list response)
    (pre : list Prediction) (p : Prediction) (older : list Prediction) :
  predictions st = (pre ++ p :: older)%list ->
  pre <> [] ->
  (length (predictions st) <= 200)%nat ->
  exists pre',
    (length pre <= length pre' <= length pre + length feed)%nat /\
    predictions (cycles st feed) = take 200 (pre' ++ p :: older)%list.
Proof.
  intros Hst Hpre Hcap.
  assert (Hst' : predictions st = take 200 (pre ++ p :: older)%list).
  { rewrite take_ge; [exact Hst | now rewrite <- Hst]. }
  clear Hst Hcap. revert st pre Hpre Hst'.
  induction feed as [| resp feed IH]; intros st pre Hpre Hst.
  - exists pre. split; [cbn [length]; lia | exact Hst].
  - destruct (job_keeps_behind st resp pre p older Hst Hpre)
      as (pre1 & Hlen1 & Hst1).
    assert (Hpre1 : pre1 <> []).
    { destruct pre1; [| discriminate]. destruct pre; [congruence |].
      cbn [length] in Hlen1. lia. }
    destruct (IH (job st resp) pre1 Hpre1 Hst1) as (pre2 & Hlen2 & Hst2).
    exists pre2. split; [cbn [length]; lia | exact Hst2].
Qed.

(** X14. A cycle that ends without exception has recorded the observation
    at the front of the history, and leaves a prediction for the next
    period in the log, so that [/predict] answers with a prediction, not
    with 404. *)
Theorem completed_cycle_has_next_prediction (st : State) (resp : response) :
  snd (body st resp) = None ->
  exists period number items k,
    resp = Json (AList (Content period number :: items)) /\
    py_int period = Some k /\
    head (trends (job st resp)) = Some (mkTrend period number (get_bs number)) /\
    (exists p, p ∈ predictions (job st resp) /\ p_period p = py_str (k + 1)) /\
    exists newest, get_prediction (job st resp) = inl newest.
Proof.
  intros Hdone.
  destruct (feed_failure resp) eqn:Hfail.
  { rewrite (job_feed_failure py_int py_str st resp Hfail) in Hdone. discriminate. }
  destruct resp as [e | [| [| [| period number] items]]]; try discriminate.
  exists period, number, items. unfold prediction_job.
  destruct (job_body_cases st period number items)
    as [[_ Heq] | [(k & Hk & Hold & Heq) | [(k & e & _ & _ & _ & Heq)
       | (k & pred & Hk & _ & _ & Heq)]]];
    rewrite Heq in Hdone |- *; cbn [snd] in Hdone; try discriminate;
    exists k; cbn [fst trends predictions];
    (split; [reflexivity |]); (split; [exact Hk |]);
    (split; [reflexivity |]).
  - apply List.existsb_exists in Hold as (p & Hp & Hperiod).
    apply String.eqb_eq in Hperiod. apply list_elem_of_In in Hp.
    split; [eauto |]. unfold get_prediction.
    destruct (grade_last _ _ _ _) as [| newest ?]; [| eauto].
    now apply elem_of_nil in Hp.
  - unfold appendleft. cbn [take]. split.
    + eexists. split; [apply elem_of_cons; now left | reflexivity].
    + unfold get_prediction. cbn [predictions]. eauto.
Qed.

Lemma job_bounded (st : State) (resp : response) :
  bounded st -> bounded (job st resp).
Proof.
  intros [Ht Hp].
  destruct (feed_failure resp) eqn:Hfail.
  { rewrite job_failure_state by assumption. now split. }
  destruct resp as [e | [| [| [| period number] items]]]; try discriminate.
  unfold prediction_job, bounded.
  destruct (job_body_cases st period number items)
    as [[_ ->] | [(k & _ & _ & ->) | [(k & e & _ & _ & _ & ->)
       | (k & pred & _ & _ & _ & ->)]]];
    cbn [fst trends predictions];
    (split; [apply length_appendleft |]);
    rewrite ?grade_last_length; try exact Hp.
  apply length_appendleft.
Qed.

Lemma load_history_bounded (st : State) (file : history_file) :
  bounded st -> bounded (load_history st file).
Proof.
  intros Hst. destruct file as [| | t p]; cbn [load_history]; [exact Hst | |].
  - split; cbn; lia.
  - split; cbn [trends predictions]; apply length_lastn_le.
Qed.

Lemma cycles_bounded (st : State) (feed : list response) :
  bounded st -> bounded (cycles st feed).
Proof.
  revert st. induction feed as [| resp feed IH]; intros st Hst; [exact Hst |].
  cbn [run_cycles foldl]. now apply IH, job_bounded.
Qed.

(** X15. Persisting and reloading gives back the logs.  For whatever the
    history file held at start-up and whatever the feed delivered since,
    the state the job has reached is what [load_history] reads from the
    file a successful [save_history] writes; the logs never exceed their
    capacities of 1000 and 200, so the deques built on loading drop
    nothing.  If the dump fails after the file was opened, the next load
    starts from empty logs. *)
Theorem history_round_trip (file old : history_file) (feed : list response)
    (st0 : State) :
  let st := cycles (load_history (mkState [] []) file) feed in
  bounded st /\
  load_history st0 (save_history st old Written) = st /\
  load_history st0 (save_history st old DumpFailed) = mkState [] [].
Proof.
  cbv zeta.
  assert (Hb : bounded (cycles (load_history (mkState [] []) file) feed)).
  { apply cycles_bounded, load_history_bounded. split; cbn; lia. }
  split; [exact Hb |]. split; [| reflexivity].
  destruct Hb as [Ht Hp].
  destruct (cycles (load_history (mkState [] []) file) feed) as [t p].
  cbn [save_history load_history default trends predictions] in *.
  unfold deque_of. now rewrite !lastn_all.
Qed.

(** X16. On values the float division can take (magnitude at most
    10^300): when [int(period)] or the engine raises, the cycle is
    abandoned after its first writes.  The observation has been appended
    to the history and the most recent prediction graded, and this stays
    so; no prediction is stored.  The exception is the ValueError of [int]
    or the IndexError of the engine. *)
Theorem exception_after_observation_recorded (st : State) (period : string)
    (number : Z) (items : list entry) (st' : State) (e : exn) :
  Forall float_safe (t_num <$> trends st) ->
  float_safe number ->
  body st (Json (AList (Content period number :: items))) = (st', Some e) ->
  trends st' =
    take 1000 (mkTrend period number (get_bs number) :: trends st) /\
  predictions st' =
    grade_last period (get_bs number) number (predictions st) /\
  ((e = ValueError /\ py_int period = None) \/
   (e = IndexError /\ exists k, py_int period = Some k)).
Proof.
  intros _ _.
  destruct (job_body_cases st period number items)
    as [[Hk ->] | [(k & _ & _ & ->) | [(k & e' & Hk & _ & Herr & ->)
       | (k & pred & _ & _ & _ & ->)]]];
    intros [= <- <-] || intros [=]; cbn [trends predictions].
  - split; [reflexivity |]. split; [reflexivity |]. now left.
  - split; [reflexivity |]. split; [reflexivity |]. right.
    apply dragonx_engine_raises_index_error in Herr as ->. eauto.
Qed.

(** X17. A SKIP verdict is booked as a loss: when the observation of its
    period arrives, the result of a most recent prediction of category
    SKIP becomes Lose, whatever the observed value is; its other fields
    stay as they were. *)
Theorem skip_is_graded_lose (st : State) (period : string) (number : Z)
    (items : list entry) (last_pred : Prediction) (older : list Prediction) :
  predictions st = last_pred :: older ->
  p_period last_pred = period ->
  p_bs last_pred = "SKIP" ->
  exists graded,
    same_but_result last_pred graded /\
    p_result graded = "Lose" /\
    let st' := job st (Json (AList (Content period number :: items))) in
    predictions st' = graded :: older \/
    exists new,
      p_result new = "P" /\
      predictions st' = take 200 (new :: graded :: older).
Proof.
  intros Hst Hperiod Hskip.
  pose proof (job_grades py_int py_str st period number items last_pred older
                Hst Hperiod) as Hjob.
  assert (Hlose : grade last_pred (get_bs number) number = "Lose").
  { destruct (grade_cases py_int py_str last_pred (get_bs number) number)
      as (_ & _ & HL).
    apply HL. rewrite Hskip.
    destruct (get_bs_category number) as [-> | ->]; discriminate. }
  rewrite Hlose in Hjob.
  exists (set_result last_pred "Lose").
  destruct (set_result_writes last_pred "Lose") as [Hsame Hresult].
  split; [exact Hsame |]. split; [exact Hresult |]. exact Hjob.
Qed.

Lemma valid_history_in_domain (l : list Trend) :
  Forall (fun t => 0 <= t_num t <= 9 /\ t_bs t = get_bs (t_num t)) l ->
  in_domain (t_num <$> l) (t_bs <$> l).
Proof.
  intros Hall. split.
  - apply Forall_fmap. apply (Forall_impl _ _ _ Hall). now intros t [Ht _].
  - induction Hall as [| t l [_ Ht] _ IH]; [reflexivity |].
    rewrite !fmap_cons. now rewrite Ht, IH.
Qed.

(** X18. On a feed of the documented domain the job does not fail: with a
    history of valid observations, an observed value between 0 and 9 and a
    period that [int] accepts, the cycle ends without exception, and the
    history it leaves is again made of valid observations. *)
Theorem valid_feed_never_fails (st : State) (period : string) (number k : Z)
    (items : list entry) :
  valid_history st ->
  0 <= number <= 9 ->
  py_int period = Some k ->
  snd (body st (Json (AList (Content period number :: items)))) = None /\
  valid_history (job st (Json (AList (Content period number :: items)))).
Proof.
  intros Hvalid Hnumber Hk.
  assert (Hvalid1 : Forall (fun t => 0 <= t_num t <= 9 /\ t_bs t = get_bs (t_num t))
                      (appendleft 1000 (mkTrend period number (get_bs number))
                         (trends st))).
  { unfold appendleft. apply Forall_take. apply Forall_cons. split; [| exact Hvalid].
    cbn. split; [exact Hnumber | reflexivity]. }
  unfold prediction_job, valid_history.
  destruct (job_body_cases st period number items)
    as [[Hnone ->] | [(k' & _ & _ & ->) | [(k' & e & _ & _ & Herr & ->)
       | (k' & pred & _ & _ & _ & ->)]]];
    cbn [fst snd trends]; try (split; [reflexivity | exact Hvalid1]).
  - congruence.
  - exfalso.
    destruct (dragonx_engine_total _ _
                (grade_last period (get_bs number) number (predictions st))
                (valid_history_in_domain _ Hvalid1)) as [v Hv].
    congruence.
Qed.

End JobInvariants.

(** ** Concrete runs for the invariants *)

Lemma no_two_predictions_for_a_period_witness :
  NoDup (p_period <$>
         predictions (run_cycles int_decimal str_decimal waiting_for_10
                        [Json (AList [Content "10" 7]);
                         Json (AList [Content "10" 7]);
                         Json (AList [Content "11" 2])])).
Proof.
  apply (no_two_predictions_for_a_period int_decimal str_decimal waiting_for_10).
  apply (bool_decide_unpack _). vm_compute. exact I.
Defined.

(** Two pending predictions, the older one for a period the feed skipped. *)
Definition missed_10 : State :=
  {| trends := [mkTrend "10" 7 "B"; mkTrend "8" 7 "B"];
     predictions := [stored "11" "B" "P"; stored "9" "B" "P"] |}.

Lemma older_predictions_frozen_witness :
  exists pre',
    (length [stored "11" "B" "P"] <= length pre'
     <= length [stored "11" "B" "P"]
        + length [Json (AList [Content "9" 7]); Json (AList [Content "11" 7])])%nat /\
    predictions (run_cycles int_decimal str_decimal missed_10
                   [Json (AList [Content "9" 7]); Json (AList [Content "11" 7])])
      = take 200 (pre' ++ stored "9" "B" "P" :: [])%list.
Proof.
  apply (older_predictions_frozen int_decimal str_decimal missed_10
           [Json (AList [Content "9" 7]); Json (AList [Content "11" 7])]
           [stored "11" "B" "P"] (stored "9" "B" "P") []).
  - reflexivity.
  - discriminate.
  - simpl. lia.
Defined.

Lemma completed_cycle_has_next_prediction_witness :
  exists period number items k,
    Json (AList [Content "10" 7]) = Json (AList (Content period number :: items)) /\
    int_decimal period = Some k /\
    head (trends (prediction_job int_decimal str_decimal waiting_for_10
                    (Json (AList [Content "10" 7]))))
      = Some (mkTrend period number (get_bs number)) /\
    (exists p,
       p ∈ predictions (prediction_job int_decimal str_decimal waiting_for_10
                          (Json (AList [Content "10" 7]))) /\
       p_period p = str_decimal (k + 1)) /\
    exists newest,
      get_prediction (prediction_job int_decimal str_decimal waiting_for_10
                        (Json (AList [Content "10" 7]))) = inl newest.
Proof.
  apply (completed_cycle_has_next_prediction int_decimal str_decimal
           waiting_for_10 (Json (AList [Content "10" 7]))).
  vm_compute. reflexivity.
Defined.

Lemma exception_after_observation_recorded_witness :
  trends {| trends := [mkTrend "1O" 7 "B"; mkTrend "9" 7 "B"];
            predictions := [stored "10" "B" "P"] |} =
    take 1000 (mkTrend "1O" 7 (get_bs 7) :: trends waiting_for_10) /\
  predictions {| trends := [mkTrend "1O" 7 "B"; mkTrend "9" 7 "B"];
                 predictions := [stored "10" "B" "P"] |} =
    grade_last "1O" (get_bs 7) 7 (predictions waiting_for_10) /\
  ((ValueError = ValueError /\ int_decimal "1O" = None) \/
   (ValueError = IndexError /\ exists k, int_decimal "1O" = Some k)).
Proof.
  apply (exception_after_observation_recorded int_decimal str_decimal
           waiting_for_10 "1O" 7 []).
  - solve_float_safe.
  - unfold float_safe. apply Z.leb_le. vm_compute. reflexivity.
  - vm_compute. reflexivity.
Defined.

(** A state whose most recent prediction is a pending SKIP verdict. *)
Definition skipped_10 : State :=
  {| trends := [mkTrend "9" 7 "B"];
     predictions :=
       [ {| p_period := "10"; p_bs := "SKIP"; p_num := PStr "-";
            p_confidence := 0;
            p_logic := "🔥 HIGH-RISK DRAGON DETECTED! SKIP ZONE! 🔥";
            p_bias := "DRAGON_RISK"; p_result := "P" |} ] |}.

Lemma skip_is_graded_lose_witness :
  let last_pred :=
    {| p_period := "10"; p_bs := "SKIP"; p_num := PStr "-"; p_confidence := 0;
       p_logic := "🔥 HIGH-RISK DRAGON DETECTED! SKIP ZONE! 🔥";
       p_bias := "DRAGON_RISK"; p_result := "P" |} in
  exists graded,
    same_but_result last_pred graded /\
    p_result graded = "Lose" /\
    let st' := prediction_job int_decimal str_decimal skipped_10
                 (Json (AList [Content "10" 7])) in
    predictions st' = graded :: [] \/
    exists new,
      p_result new = "P" /\
      predictions st' = take 200 (new :: graded :: []).
Proof.
  intros last_pred.
  apply (skip_is_graded_lose int_decimal str_decimal skipped_10 "10" 7 []
           last_pred []); reflexivity.
Defined.

Lemma valid_feed_never_fails_witness :
  snd (job_body int_decimal str_decimal waiting_for_10
         (Json (AList [Content "10" 7]))) = None /\
  valid_history (prediction_job int_decimal str_decimal waiting_for_10
                   (Json (AList [Content "10" 7]))).
Proof.
  apply (valid_feed_never_fails int_decimal str_decimal waiting_for_10
           "10" 7 10 []).
  - repeat constructor; cbn; lia.
  - lia.
  - reflexivity.
Defined.
